(** * Synthetic 2D datasets: a model of [src/dataset.ts]

    Numbers are the source's [number]s read as real numbers ([R]); the
    ambient random source [Math.random] is a sequence [rnd : nat -> R] of
    draws together with the position of the next draw, threaded through
    every primitive and generator by a small state monad.  Loops whose
    bound is a number are defined by well-founded recursion on the distance
    to the bound, so that a generator is a total function of
    [(rnd, numSamples, noise)]; only the rejection loop of [normalRandom],
    which need not end, carries an iteration budget.  Where a count hangs on
    how the program rounds, in the quotas of the line-based generator, the
    generator is given a second time, in module [Rounded], over the
    program's own operations, of which only what [rounded] states is
    assumed. *)

From Stdlib Require Import Reals Lra Lia List ZArith Permutation.
From Equations Require Import Equations.
Import ListNotations.

Set Implicit Arguments.
Open Scope R_scope.

(** ** Data model *)

Module Example2D.
Record t : Type := mk { x : R; y : R; label : R }.
End Example2D.

Module Point.
Record t : Type := mk { x : R; y : R }.
End Point.

Module PropertyForLines.
Record t : Type := mk { label : R; ratio : R; p0 : Point.t; p1 : Point.t }.
End PropertyForLines.

(** ** The random source and the state monad *)

(** A computation reads draws from position [k] on and returns the position
    of the first draw it has not used. *)
Definition M (A : Type) : Type := nat -> A * nat.

Definition ret {A} (a : A) : M A := fun k => (a, k).

Definition bind {A B} (m : M A) (f : A -> M B) : M B :=
  fun k => let (a, k') := m k in f a k'.

Notation "x <- m ;; f" := (bind m (fun x => f))
  (at level 61, m at next level, right associativity).

(** Computations that may not return (a rejection loop out of budget). *)
Definition Mo (A : Type) : Type := nat -> option (A * nat).

Definition reto {A} (a : A) : Mo A := fun k => Some (a, k).

Definition bindo {A B} (m : Mo A) (f : A -> Mo B) : Mo B :=
  fun k => match m k with
           | Some (a, k') => f a k'
           | None => None
           end.

Notation "x <-? m ;; f" := (bindo m (fun x => f))
  (at level 61, m at next level, right associativity).

Definition lift {A} (m : M A) : Mo A := fun k => Some (m k).

(** ** Loops *)

(** A loop counter below the bound leaves one unit less to the bound. *)
Ltac for_lt_decreases :=
  match goal with
  | Hlt : INR ?i < ?bound |- _ =>
      let Hup := fresh "Hup" in
      destruct (archimed bound) as [Hup _];
      assert (Z.of_nat i < up bound)%Z
        by (apply lt_IZR; rewrite <- INR_IZR_INZ; lra);
      lia
  end.

(** [for (let i = i0; i < bound; i++) body(i)], the body acting on a loop
    state [S] and on the random source. *)
Equations? for_lt {S : Type} (bound : R) (body : nat -> S -> M S)
    (i : nat) (s : S) (k : nat) : S * nat
    by wf (Z.to_nat (up bound - Z.of_nat i)) lt :=
  for_lt bound body i s k with Rlt_dec (INR i) bound := {
    | left Hlt => for_lt bound body (Datatypes.S i) (fst (body i s k)) (snd (body i s k))
    | right _ => (s, k) }.
Proof. all: for_lt_decreases. Qed.

(** The same loop for a body that may not return. *)
Equations? for_lt_opt {S : Type} (bound : R) (body : nat -> S -> Mo S)
    (i : nat) (s : S) (k : nat) : option (S * nat)
    by wf (Z.to_nat (up bound - Z.of_nat i)) lt :=
  for_lt_opt bound body i s k with Rlt_dec (INR i) bound := {
    | left Hlt with body i s k := {
        | Some (s', k') => for_lt_opt bound body (Datatypes.S i) s' k'
        | None => None }
    | right _ => Some (s, k) }.
Proof. all: for_lt_decreases. Qed.

(** [for (let a of l) body(a)]. *)
Fixpoint for_of {A S : Type} (l : list A) (body : A -> S -> M S) (s : S) : M S :=
  match l with
  | [] => ret s
  | a :: l' => s' <- body a s ;; for_of l' body s'
  end.

(** ** Library functions the source calls *)

(** Modelled from the spec: [d3.scale.linear().domain([d0, d1]).range([r0, r1])],
    with [.clamp(true)] when [clamp] is set; the d3 library is not part of
    the repository.  The spec describes it as the linear map from the domain
    to the range, clamped to the range or not. *)
Definition d3_scale_linear (domain range : R * R) (clamp : bool) (v : R) : R :=
  let (d0, d1) := domain in
  let (r0, r1) := range in
  let t := (v - d0) / (d1 - d0) in
  let t := if clamp then Rmax 0 (Rmin 1 t) else t in
  r0 + (r1 - r0) * t.

(** [Math.floor], the result read as an integer. *)
Definition Math_floor (r : R) : Z := Int_part r.

(** ** JavaScript arrays *)

Section JsArray.

Variable A : Type.
(** The value [undefined], read from an index that holds nothing. *)
Variable undefined : A.

(** [array[index]]: out of range the read gives [undefined]. *)
Definition js_get (array : list A) (index : Z) : A :=
  if (index <? 0)%Z then undefined else nth (Z.to_nat index) array undefined.

(** Writing at [n]: past the end the array grows, the gap reading
    [undefined]. *)
Fixpoint set_nth (array : list A) (n : nat) (v : A) : list A :=
  match n, array with
  | O, [] => [v]
  | O, _ :: rest => v :: rest
  | Datatypes.S n', [] => undefined :: set_nth [] n' v
  | Datatypes.S n', a :: rest => a :: set_nth rest n' v
  end.

(** [array[index] = v]: a negative index names a property, not an element,
    and leaves the elements as they are. *)
Definition js_set (array : list A) (index : Z) (v : A) : list A :=
  if (index <? 0)%Z then array else set_nth array (Z.to_nat index) v.

End JsArray.

(** ** The source, function by function *)

Section Generators.

(** [rnd k] is the value of the [k]-th call of [Math.random()]. *)
Variable rnd : nat -> R.

Definition Math_random : M R := fun k => (rnd k, Datatypes.S k).

Section Shuffle.

Variable A : Type.
Variable undefined : A.

(** The [while (counter > 0)] loop of [shuffle]; [counter] starts at
    [array.length]. *)
Fixpoint shuffle_loop (counter : nat) (array : list A) : M (list A) :=
  match counter with
  | O => ret array
  | Datatypes.S counter' =>
      u <- Math_random ;;
      let index := Math_floor (u * INR counter) in
      let temp := js_get undefined array (Z.of_nat counter') in
      let array := js_set undefined array (Z.of_nat counter')
                          (js_get undefined array index) in
      let array := js_set undefined array index temp in
      shuffle_loop counter' array
  end.

Definition shuffle (array : list A) : M (list A) :=
  shuffle_loop (length array) array.

End Shuffle.

Definition randUniform (a b : R) : M R :=
  u <- Math_random ;; ret (u * (b - a) + a).

Definition randOnLine (a b : Point.t) : M Point.t :=
  t <- Math_random ;;
  ret (Point.mk (Point.x a + (Point.x b - Point.x a) * t)
                (Point.y a + (Point.y b - Point.y a) * t)).

(** The [do ... while (s > 1)] loop of [normalRandom]: the pair [(v1, s)] it
    leaves in scope, or nothing when [fuel] rounds all draw [s > 1]. *)
Fixpoint normalRandom_loop (fuel : nat) : Mo (R * R) :=
  match fuel with
  | O => fun _ => None
  | Datatypes.S fuel' =>
      u1 <-? lift Math_random ;;
      let v1 := 2 * u1 - 1 in
      u2 <-? lift Math_random ;;
      let v2 := 2 * u2 - 1 in
      let s := v1 * v1 + v2 * v2 in
      if Rgt_dec s 1 then normalRandom_loop fuel' else reto (v1, s)
  end.

Definition normalRandom (fuel : nat) (mean variance : R) : Mo R :=
  vs <-? normalRandom_loop fuel ;;
  let (v1, s) := vs : R * R in
  let result := sqrt (-2 * ln s / s) * v1 in
  reto (mean + sqrt variance * result).

Definition dist (a b : Point.t) : R :=
  let dx := Point.x a - Point.x b in
  let dy := Point.y a - Point.y b in
  sqrt (dx * dx + dy * dy).

Definition genGauss (fuel : nat) (numSamples variance cx cy label : R)
    (points : list Example2D.t) : Mo (list Example2D.t) :=
  for_lt_opt (numSamples / 2)
    (fun _ points =>
       x <-? normalRandom fuel cx variance ;;
       y <-? normalRandom fuel cy variance ;;
       reto (points ++ [Example2D.mk x y label]))
    0 points.

Definition classifyTwoGaussData (fuel : nat) (numSamples noise : R)
    : Mo (list Example2D.t) :=
  let points := [] in
  let varianceScale := d3_scale_linear (0, 0.5) (0.5, 4) false in
  let variance := varianceScale noise in
  points <-? genGauss fuel numSamples variance 2 2 1 points ;;
  points <-? genGauss fuel numSamples variance (-2) (-2) (-1) points ;;
  reto points.

Definition regressPlane (numSamples noise : R) : M (list Example2D.t) :=
  let radius := 6 in
  let labelScale := d3_scale_linear (-10, 10) (-1, 1) false in
  let getLabel x y := labelScale (x + y) in
  let points := [] in
  for_lt numSamples
    (fun _ points =>
       x <- randUniform (- radius) radius ;;
       y <- randUniform (- radius) radius ;;
       nx <- randUniform (- radius) radius ;;
       let noiseX := nx * noise in
       ny <- randUniform (- radius) radius ;;
       let noiseY := ny * noise in
       let label := getLabel (x + noiseX) (y + noiseY) in
       ret (points ++ [Example2D.mk x y label]))
    0 points.

Definition gaussians : list (R * R * R) :=
  [ (-4, 2.5, 1); (0, 2.5, -1); (4, 2.5, 1);
    (-4, -2.5, -1); (0, -2.5, 1); (4, -2.5, -1) ].

Definition regressGaussian_labelScale : R -> R :=
  d3_scale_linear (0, 2) (1, 0) true.

(** [getLabel] of [regressGaussian]: [forEach] over the centres, keeping
    the candidate of strictly larger absolute value. *)
Definition regressGaussian_getLabel (x y : R) : R :=
  let label := 0 in
  fold_left
    (fun label (g : R * R * R) =>
       let '(cx, cy, sign) := g in
       let newLabel :=
         sign * regressGaussian_labelScale (dist (Point.mk x y) (Point.mk cx cy)) in
       if Rgt_dec (Rabs newLabel) (Rabs label) then newLabel else label)
    gaussians label.

Definition regressGaussian (numSamples noise : R) : M (list Example2D.t) :=
  let points := [] in
  let radius := 6 in
  for_lt numSamples
    (fun _ points =>
       x <- randUniform (- radius) radius ;;
       y <- randUniform (- radius) radius ;;
       nx <- randUniform (- radius) radius ;;
       let noiseX := nx * noise in
       ny <- randUniform (- radius) radius ;;
       let noiseY := ny * noise in
       let label := regressGaussian_getLabel (x + noiseX) (y + noiseY) in
       ret (points ++ [Example2D.mk x y label]))
    0 points.

Definition genSpiral (n noise deltaT label : R) (points : list Example2D.t)
    : M (list Example2D.t) :=
  for_lt n
    (fun i points =>
       let r := INR i / n * 5 in
       let t := 1.75 * INR i / n * 2 * PI + deltaT in
       ux <- randUniform (-1) 1 ;;
       let x := r * sin t + ux * noise in
       uy <- randUniform (-1) 1 ;;
       let y := r * cos t + uy * noise in
       ret (points ++ [Example2D.mk x y label]))
    0 points.

Definition classifySpiralData (numSamples noise : R) : M (list Example2D.t) :=
  let points := [] in
  let n := numSamples / 2 in
  points <- genSpiral n noise 0 1 points ;;
  points <- genSpiral n noise PI (-1) points ;;
  ret points.

Definition getCircleLabel (radius : R) (p center : Point.t) : R :=
  if Rlt_dec (dist p center) (radius * 0.5) then 1 else -1.

(** One ring of [classifyCircleData]: the two loops of the source differ
    only in the interval [[rlo, rhi]] the radius is drawn from. *)
Definition classifyCircleData_ring (radius numSamples noise rlo rhi : R)
    (points : list Example2D.t) : M (list Example2D.t) :=
  for_lt (numSamples / 2)
    (fun _ points =>
       r <- randUniform rlo rhi ;;
       angle <- randUniform 0 (2 * PI) ;;
       let x := r * sin angle in
       let y := r * cos angle in
       nx <- randUniform (- radius) radius ;;
       let noiseX := nx * noise in
       ny <- randUniform (- radius) radius ;;
       let noiseY := ny * noise in
       let label :=
         getCircleLabel radius (Point.mk (x + noiseX) (y + noiseY)) (Point.mk 0 0) in
       ret (points ++ [Example2D.mk x y label]))
    0 points.

Definition classifyCircleData (numSamples noise : R) : M (list Example2D.t) :=
  let points := [] in
  let radius := 5 in
  points <- classifyCircleData_ring radius numSamples noise 0 (radius * 0.5) points ;;
  points <- classifyCircleData_ring radius numSamples noise (radius * 0.7) radius points ;;
  ret points.

Definition getXORLabel (p : Point.t) : R :=
  if Rge_dec (Point.x p * Point.y p) 0 then 1 else -1.

Definition classifyXORData (numSamples noise : R) : M (list Example2D.t) :=
  let points := [] in
  for_lt numSamples
    (fun _ points =>
       x <- randUniform (-5) 5 ;;
       let padding := 0.3 in
       let x := x + (if Rgt_dec x 0 then padding else - padding) in
       y <- randUniform (-5) 5 ;;
       let y := y + (if Rgt_dec y 0 then padding else - padding) in
       nx <- randUniform (-5) 5 ;;
       let noiseX := nx * noise in
       ny <- randUniform (-5) 5 ;;
       let noiseY := ny * noise in
       let label := getXORLabel (Point.mk (x + noiseX) (y + noiseY)) in
       ret (points ++ [Example2D.mk x y label]))
    0 points.

(** [Number(prop.label)] is [prop.label], which is a number already; the
    default [randRadius = 3] is passed by the two callers. *)
Definition makeClassifyDataWithLines (numSamples noise : R)
    (props : list PropertyForLines.t) (randRadius : R) : M (list Example2D.t) :=
  let sumOfRatio :=
    fold_left (fun sum x => sum + PropertyForLines.ratio x) props 0 in
  let points := [] in
  for_of props
    (fun prop points =>
       let num :=
         Math_floor (PropertyForLines.ratio prop / sumOfRatio * numSamples) in
       for_lt (IZR num)
         (fun _ points =>
            p <- randOnLine (PropertyForLines.p0 prop) (PropertyForLines.p1 prop) ;;
            nx <- randUniform (- randRadius) randRadius ;;
            let noiseX := nx * noise in
            ny <- randUniform (- randRadius) randRadius ;;
            let noiseY := ny * noise in
            ret (points ++ [Example2D.mk (Point.x p + noiseX) (Point.y p + noiseY)
                                         (PropertyForLines.label prop)]))
         0 points)
    points.

Definition line (label ratio x0 y0 x1 y1 : R) : PropertyForLines.t :=
  PropertyForLines.mk label ratio (Point.mk x0 y0) (Point.mk x1 y1).

Definition classifyOxtuData_props : list PropertyForLines.t :=
  [ line 1 1.0 (-4.0) 3.0 1.5 3.0;
    line 1 1.0 (-0.8) 4.5 (-0.8) (-2.0);
    line 1 0.08 (-0.9) (-1.6) (-2.0) (-1.0);
    line (-1) 0.8 (-1.6) 2.0 (-4.0) (-1.0);
    line (-1) 0.2 1.7 (-1.5) 2.2 (-2.5);
    line (-1) 0.2 3.0 (-1.0) 3.5 (-2.0);
    line 1 0.2 5.0 (-1.0) 4.7 (-3.0);
    line 1 0.3 4.7 (-3.0) 2.0 (-4.6) ].

Definition classifyOxtuData (numSamples noise : R) : M (list Example2D.t) :=
  makeClassifyDataWithLines numSamples noise classifyOxtuData_props 3.

Definition classifyJavaData_props : list PropertyForLines.t :=
  [ line 1 1.0 (-4.0) 0.5 (-3.0) 0.0;
    line (-1) 1.0 (-4.0) 2.0 (-3.0) 1.0;
    line (-1) 1.5 (-1.0) 1.0 (-2.0) (-1.0);
    line (-1) 1.5 (-4.0) (-1.7) (-2.0) (-1.0);
    line 1 0.5 (-2.0) 3.0 (-2.0) 2.0;
    line (-1) 0.5 (-1.0) 3.0 (-1.0) 2.0;
    line (-1) 1.0 (-1.5) (-3.5) 0.5 (-2.5);
    line (-1) 0.5 (-0.0) (-3.5) 0.5 (-2.5);
    line 1 0.8 (-1.2) (-2.0) (-0.4) (-4.5);
    line 1 0.5 2.0 1.0 2.0 0.0;
    line 1 1.0 1.0 (-2.0) 2.0 0.0;
    line (-1) 1.5 3.5 1.0 4.5 (-2.0);
    line 1 0.5 3.0 3.0 3.0 2.0;
    line (-1) 0.5 4.0 3.0 4.0 2.0 ].

Definition classifyJavaData (numSamples noise : R) : M (list Example2D.t) :=
  makeClassifyDataWithLines numSamples noise classifyJavaData_props 3.

End Generators.

(** ** The line-based generator in the program's own arithmetic *)

(** A number of the program, a binary64 value: [m * 2 ^ e] with [m] of at
    most 53 bits. *)
Definition binary64 (r : R) : Prop :=
  exists m e : Z,
    (Z.abs m < 2 ^ 53)%Z /\ (-1074 <= e <= 971)%Z /\ r = IZR m * powerRZ 2 e.

(** What is assumed of the program's [+], [*] and [/] on numbers: each
    returns the exact result whenever that is a number of the program, and
    the product and the quotient of non-negative numbers are not negative.
    Nothing else is assumed of their rounding. *)
Record rounded (add mul div : R -> R -> R) : Prop := {
  add_exact : forall a b, binary64 (a + b) -> add a b = a + b;
  mul_exact : forall a b, binary64 (a * b) -> mul a b = a * b;
  div_exact : forall a b, b <> 0 -> binary64 (a / b) -> div a b = a / b;
  mul_nonneg : forall a b, 0 <= a -> 0 <= b -> 0 <= mul a b;
  div_nonneg : forall a b, 0 <= a -> 0 < b -> 0 <= div a b
}.

Module Rounded.

Section Arithmetic.

Variable rnd : nat -> R.

(** [a + b], [a - b], [a * b] and [a / b] as the program computes them. *)
Variables add sub mul div : R -> R -> R.

Definition randUniform (a b : R) : M R :=
  u <- Math_random rnd ;; ret (add (mul u (sub b a)) a).

Definition randOnLine (a b : Point.t) : M Point.t :=
  t <- Math_random rnd ;;
  ret (Point.mk (add (Point.x a) (mul (sub (Point.x b) (Point.x a)) t))
                (add (Point.y a) (mul (sub (Point.y b) (Point.y a)) t))).

Definition sumOfRatio (props : list PropertyForLines.t) : R :=
  fold_left (fun sum x => add sum (PropertyForLines.ratio x)) props 0.

(** [Math.floor(prop.ratio / sumOfRatio * numSamples)]. *)
Definition floor_quota (numSamples : R) (props : list PropertyForLines.t)
    (prop : PropertyForLines.t) : Z :=
  Math_floor (mul (div (PropertyForLines.ratio prop) (sumOfRatio props)) numSamples).

Definition makeClassifyDataWithLines (numSamples noise : R)
    (props : list PropertyForLines.t) (randRadius : R) : M (list Example2D.t) :=
  let sumOfRatio :=
    fold_left (fun sum x => add sum (PropertyForLines.ratio x)) props 0 in
  let points := [] in
  for_of props
    (fun prop points =>
       let num :=
         Math_floor (mul (div (PropertyForLines.ratio prop) sumOfRatio) numSamples) in
       for_lt (IZR num)
         (fun _ points =>
            p <- randOnLine (PropertyForLines.p0 prop) (PropertyForLines.p1 prop) ;;
            nx <- randUniform (- randRadius) randRadius ;;
            let noiseX := mul nx noise in
            ny <- randUniform (- randRadius) randRadius ;;
            let noiseY := mul ny noise in
            ret (points ++ [Example2D.mk (add (Point.x p) noiseX)
                                         (add (Point.y p) noiseY)
                                         (PropertyForLines.label prop)]))
         0 points)
    points.

(** The example one round appends, from the draws at [k], [k + 1], [k + 2]. *)
Definition lines_example (noise randRadius : R) (prop : PropertyForLines.t)
    (k : nat) : Example2D.t :=
  let a := PropertyForLines.p0 prop in
  let b := PropertyForLines.p1 prop in
  let px := add (Point.x a) (mul (sub (Point.x b) (Point.x a)) (rnd k)) in
  let py := add (Point.y a) (mul (sub (Point.y b) (Point.y a)) (rnd k)) in
  let nx := add (mul (rnd (S k)) (sub randRadius (- randRadius))) (- randRadius) in
  let ny := add (mul (rnd (S (S k))) (sub randRadius (- randRadius))) (- randRadius) in
  Example2D.mk (add px (mul nx noise)) (add py (mul ny noise))
               (PropertyForLines.label prop).

End Arithmetic.

End Rounded.

(** ** Definitions used to state and prove the properties *)

(** The number of rounds of [for (let i = 0; i < bound; i++)]: the least
    natural number that is not below [bound]. *)
Definition trips (bound : R) : nat := Z.to_nat (- Int_part (- bound)).

(** [n] rounds of a loop body, the counter starting at [i]. *)
Fixpoint for_upto {S : Type} (n : nat) (body : nat -> S -> M S)
    (i : nat) (s : S) : M S :=
  match n with
  | O => ret s
  | Datatypes.S n' => s' <- body i s ;; for_upto n' body (Datatypes.S i) s'
  end.

Fixpoint for_upto_opt {S : Type} (n : nat) (body : nat -> S -> Mo S)
    (i : nat) (s : S) : Mo S :=
  match n with
  | O => reto s
  | Datatypes.S n' => s' <-? body i s ;; for_upto_opt n' body (Datatypes.S i) s'
  end.

(** The value [randUniform a b] computes from the draw [u]. *)
Definition uniform (a b u : R) : R := u * (b - a) + a.

(** The coordinates of an example. *)
Definition coords (e : Example2D.t) : R * R := (Example2D.x e, Example2D.y e).

(** A classification label. *)
Definition is_class_label (l : R) : Prop := l = 1 \/ l = -1.

(** A pair of draws the rejection loop of [normalRandom] leaves with. *)
Definition accepted (u1 u2 : R) : Prop :=
  ~ (2 * u1 - 1) * (2 * u1 - 1) + (2 * u2 - 1) * (2 * u2 - 1) > 1.

(** From every position on, one of the next [fuel] pairs of draws is
    accepted: no rejection loop needs more than [fuel] rounds. *)
Definition fair (rnd : nat -> R) (fuel : nat) : Prop :=
  forall p, exists j, (j < fuel)%nat
    /\ accepted (rnd (2 * j + p)%nat) (rnd (S (2 * j + p))).

Section Examples.

Variable rnd : nat -> R.

(** The example one round of each loop appends, from the draws at
    positions [k], [k + 1], ... *)
Definition regressPlane_example (noise : R) (k : nat) : Example2D.t :=
  let x := uniform (-6) 6 (rnd k) in
  let y := uniform (-6) 6 (rnd (S k)) in
  let noiseX := uniform (-6) 6 (rnd (S (S k))) * noise in
  let noiseY := uniform (-6) 6 (rnd (S (S (S k)))) * noise in
  Example2D.mk x y
    (d3_scale_linear (-10, 10) (-1, 1) false ((x + noiseX) + (y + noiseY))).

Definition regressGaussian_example (noise : R) (k : nat) : Example2D.t :=
  let x := uniform (-6) 6 (rnd k) in
  let y := uniform (-6) 6 (rnd (S k)) in
  let noiseX := uniform (-6) 6 (rnd (S (S k))) * noise in
  let noiseY := uniform (-6) 6 (rnd (S (S (S k)))) * noise in
  Example2D.mk x y (regressGaussian_getLabel (x + noiseX) (y + noiseY)).

Definition classifySpiralData_example (n noise deltaT label : R) (i k : nat)
    : Example2D.t :=
  let r := INR i / n * 5 in
  let t := 1.75 * INR i / n * 2 * PI + deltaT in
  Example2D.mk (r * sin t + uniform (-1) 1 (rnd k) * noise)
               (r * cos t + uniform (-1) 1 (rnd (S k)) * noise) label.

Definition classifyCircleData_example (radius noise rlo rhi : R) (k : nat)
    : Example2D.t :=
  let r := uniform rlo rhi (rnd k) in
  let angle := uniform 0 (2 * PI) (rnd (S k)) in
  let x := r * sin angle in
  let y := r * cos angle in
  let noiseX := uniform (- radius) radius (rnd (S (S k))) * noise in
  let noiseY := uniform (- radius) radius (rnd (S (S (S k)))) * noise in
  Example2D.mk x y
    (getCircleLabel radius (Point.mk (x + noiseX) (y + noiseY)) (Point.mk 0 0)).

Definition pad (x : R) : R := x + (if Rgt_dec x 0 then 0.3 else - (0.3)).

Definition classifyXORData_example (noise : R) (k : nat) : Example2D.t :=
  let x := pad (uniform (-5) 5 (rnd k)) in
  let y := pad (uniform (-5) 5 (rnd (S k))) in
  let noiseX := uniform (-5) 5 (rnd (S (S k))) * noise in
  let noiseY := uniform (-5) 5 (rnd (S (S (S k)))) * noise in
  Example2D.mk x y (getXORLabel (Point.mk (x + noiseX) (y + noiseY))).

Definition lines_example (noise randRadius : R) (prop : PropertyForLines.t)
    (k : nat) : Example2D.t :=
  let t := rnd k in
  let a := PropertyForLines.p0 prop in
  let b := PropertyForLines.p1 prop in
  let noiseX := uniform (- randRadius) randRadius (rnd (S k)) * noise in
  let noiseY := uniform (- randRadius) randRadius (rnd (S (S k))) * noise in
  Example2D.mk (Point.x a + (Point.x b - Point.x a) * t + noiseX)
               (Point.y a + (Point.y b - Point.y a) * t + noiseY)
               (PropertyForLines.label prop).

(** The point quota of a line descriptor. *)
Definition quota (numSamples sumOfRatio : R) (prop : PropertyForLines.t) : nat :=
  Z.to_nat (Math_floor (PropertyForLines.ratio prop / sumOfRatio * numSamples)).

(** The examples of the descriptors [props], in order, the draws starting
    at position [k]. *)
Fixpoint lines_examples (numSamples noise sumOfRatio randRadius : R)
    (props : list PropertyForLines.t) (k : nat) : list Example2D.t :=
  match props with
  | [] => []
  | prop :: props' =>
      let q := quota numSamples sumOfRatio prop in
      map (fun j => lines_example noise randRadius prop (3 * j + k)) (seq 0 q)
      ++ lines_examples numSamples noise sumOfRatio randRadius props' (3 * q + k)
  end.

End Examples.

(** [sumOfRatio] of [makeClassifyDataWithLines]. *)
Definition sumOfRatio (props : list PropertyForLines.t) : R :=
  fold_left (fun sum x => sum + PropertyForLines.ratio x) props 0.

(** [floor (ratio / totalRatio * numSamples)], the number the source
    compares the inner loop counter with. *)
Definition floor_quota (numSamples : R) (props : list PropertyForLines.t)
    (prop : PropertyForLines.t) : Z :=
  Math_floor (PropertyForLines.ratio prop / sumOfRatio props * numSamples).


(** The candidate label a centre of [regressGaussian] proposes at [(x, y)]. *)
Definition gaussian_value (x y : R) (g : R * R * R) : R :=
  let '(cx, cy, sign) := g in
  sign * regressGaussian_labelScale (dist (Point.mk x y) (Point.mk cx cy)).

(** One step of the reduction in [getLabel]: keep the candidate of strictly
    larger absolute value. *)
Definition max_abs_step (label newLabel : R) : R :=
  if Rgt_dec (Rabs newLabel) (Rabs label) then newLabel else label.

(** The coordinates a round samples, before any noise is drawn, from the
    draws at positions [k] and [k + 1]. *)
Definition square_coords (radius : R) (rnd : nat -> R) (k : nat) : R * R :=
  (uniform (- radius) radius (rnd k), uniform (- radius) radius (rnd (S k))).

Definition padded_coords (rnd : nat -> R) (k : nat) : R * R :=
  (pad (uniform (-5) 5 (rnd k)), pad (uniform (-5) 5 (rnd (S k)))).

Definition ring_coords (rlo rhi : R) (rnd : nat -> R) (k : nat) : R * R :=
  let r := uniform rlo rhi (rnd k) in
  let angle := uniform 0 (2 * PI) (rnd (S k)) in
  (r * sin angle, r * cos angle).

(** Two sequences of draws that agree on the two coordinate draws of every
    round of four, counted from position [k]; the noise draws are free. *)
Definition same_coordinate_draws (rnd1 rnd2 : nat -> R) (k : nat) : Prop :=
  forall j, rnd1 (4 * j + k)%nat = rnd2 (4 * j + k)%nat
            /\ rnd1 (S (4 * j + k)) = rnd2 (S (4 * j + k)).


(** A number whose size is far from the largest number of the program, so
    that differences of two such numbers do not overflow. *)
Definition moderate (r : R) : Prop := Rabs r <= 2 ^ 1000.

(** The examples of descriptors that each get [q] rounds of three draws, in
    order, the draws starting at position [k]. *)
Fixpoint grouped (q : PropertyForLines.t -> Z)
    (g : PropertyForLines.t -> nat -> Example2D.t)
    (props : list PropertyForLines.t) (k : nat) : list Example2D.t :=
  match props with
  | [] => []
  | prop :: props' =>
      map (fun j => g prop (3 * j + k)%nat) (seq 0 (Z.to_nat (q prop)))
      ++ grouped q g props' (3 * Z.to_nat (q prop) + k)
  end.

(** ** Loops: how many rounds they make *)

Lemma Int_part_spec (r : R) (z : Z) :
  IZR z <= r < IZR z + 1 -> Int_part r = z.
Proof.
  intros [Hlo Hhi]. unfold Int_part.
  assert (Hup : (z + 1)%Z = up r).
  { apply tech_up; rewrite plus_IZR; lra. }
  lia.
Qed.

Lemma Int_part_bounds (r : R) : IZR (Int_part r) <= r < IZR (Int_part r) + 1.
Proof. destruct (base_Int_part r). lra. Qed.

Lemma Int_part_IZR (z : Z) : Int_part (IZR z) = z.
Proof. apply Int_part_spec. lra. Qed.

Lemma trips_spec (bound : R) (i : nat) : (i < trips bound)%nat <-> INR i < bound.
Proof.
  unfold trips.
  pose proof (Int_part_bounds (- bound)) as [Hlo Hhi].
  set (z := Int_part (- bound)) in *.
  rewrite INR_IZR_INZ. split.
  - intros Hi.
    assert (Hz : (Z.of_nat i + 1 <= - z)%Z) by lia.
    apply IZR_le in Hz. rewrite plus_IZR, opp_IZR in Hz. lra.
  - intros Hi.
    assert (Hz : (Z.of_nat i < - z)%Z).
    { apply lt_IZR. rewrite opp_IZR. lra. }
    lia.
Qed.

Lemma trips_nonpos (bound : R) : bound <= 0 -> trips bound = O.
Proof.
  intros Hb. destruct (trips bound) eqn:E; [reflexivity|].
  assert (H : (0 < trips bound)%nat) by lia.
  apply trips_spec in H. simpl in H. lra.
Qed.

Lemma trips_unique (bound : R) (n : nat) :
  (forall i, (i < n)%nat <-> INR i < bound) -> trips bound = n.
Proof.
  intros Hn.
  assert (H1 : ~ (n < trips bound)%nat).
  { intros H. apply trips_spec in H. apply Hn in H. lia. }
  assert (H2 : ~ (trips bound < n)%nat).
  { intros H. apply Hn in H. apply trips_spec in H. lia. }
  lia.
Qed.

Lemma trips_IZR (z : Z) : trips (IZR z) = Z.to_nat z.
Proof.
  apply trips_unique. intros i. rewrite INR_IZR_INZ. split.
  - intros H. apply IZR_lt. lia.
  - intros H. apply lt_IZR in H. lia.
Qed.

(** With a bound [n / 2] the loop runs [ceil (n / 2)] rounds: [i < n / 2]
    compares numbers, it does not divide integers. *)
Lemma trips_half (n : Z) : trips (IZR n / 2) = Z.to_nat ((n + 1) / 2).
Proof.
  apply trips_unique. intros i. rewrite INR_IZR_INZ. split.
  - intros H.
    assert (Hz : (2 * Z.of_nat i < n)%Z).
    { pose proof (Z.div_mod (n + 1) 2 ltac:(lia)).
      pose proof (Z.mod_pos_bound (n + 1) 2 ltac:(lia)). lia. }
    apply IZR_lt in Hz. rewrite mult_IZR in Hz. lra.
  - intros H.
    assert (Hz : (2 * Z.of_nat i < n)%Z).
    { apply lt_IZR. rewrite mult_IZR. lra. }
    pose proof (Z.div_mod (n + 1) 2 ltac:(lia)).
    pose proof (Z.mod_pos_bound (n + 1) 2 ltac:(lia)). lia.
Qed.

Lemma for_lt_step {S : Type} (bound : R) (body : nat -> S -> M S) i s k :
  for_lt bound body i s k =
  if Rlt_dec (INR i) bound
  then for_lt bound body (Datatypes.S i) (fst (body i s k)) (snd (body i s k))
  else (s, k).
Proof.
  rewrite for_lt_equation_1.
  destruct (Rlt_dec (INR i) bound).
  - apply for_lt_clause_1_equation_1.
  - apply for_lt_clause_1_equation_2.
Qed.

Lemma for_lt_opt_step {S : Type} (bound : R) (body : nat -> S -> Mo S) i s k :
  for_lt_opt bound body i s k =
  if Rlt_dec (INR i) bound
  then match body i s k with
       | Some (s', k') => for_lt_opt bound body (Datatypes.S i) s' k'
       | None => None
       end
  else Some (s, k).
Proof.
  rewrite for_lt_opt_equation_1.
  destruct (Rlt_dec (INR i) bound).
  - rewrite for_lt_opt_clause_1_equation_1.
    destruct (body i s k) as [[s' k']|].
    + apply for_lt_opt_clause_1_clause_1_equation_1.
    + apply for_lt_opt_clause_1_clause_1_equation_2.
  - apply for_lt_opt_clause_1_equation_2.
Qed.

Lemma for_lt_rounds {S : Type} (bound : R) (body : nat -> S -> M S) :
  forall n i s k, (trips bound - i)%nat = n ->
  for_lt bound body i s k = for_upto n body i s k.
Proof.
  induction n as [|n IH]; intros i s k Hn; rewrite for_lt_step.
  - destruct (Rlt_dec (INR i) bound) as [Hlt|]; [|reflexivity].
    apply trips_spec in Hlt. lia.
  - destruct (Rlt_dec (INR i) bound) as [|Hge].
    + rewrite IH by lia. simpl. unfold bind.
      destruct (body i s k); reflexivity.
    + exfalso. apply Hge. apply trips_spec. lia.
Qed.

Lemma for_lt_opt_rounds {S : Type} (bound : R) (body : nat -> S -> Mo S) :
  forall n i s k, (trips bound - i)%nat = n ->
  for_lt_opt bound body i s k = for_upto_opt n body i s k.
Proof.
  induction n as [|n IH]; intros i s k Hn; rewrite for_lt_opt_step.
  - destruct (Rlt_dec (INR i) bound) as [Hlt|]; [|reflexivity].
    apply trips_spec in Hlt. lia.
  - destruct (Rlt_dec (INR i) bound) as [|Hge].
    + simpl. unfold bindo.
      destruct (body i s k) as [[s' k']|]; [|reflexivity].
      apply IH. lia.
    + exfalso. apply Hge. apply trips_spec. lia.
Qed.

(** A body that appends one example and uses [c] draws: the loop appends
    one example per round, each computed from its own [c] draws. *)
Lemma for_upto_push {E : Type} (c : nat) (g : nat -> nat -> E)
    (body : nat -> list E -> M (list E)) :
  (forall i pts k, body i pts k = (pts ++ [g i k], (c + k)%nat)) ->
  forall n i pts k,
    for_upto n body i pts k =
    (pts ++ map (fun j => g (j + i)%nat (c * j + k)%nat) (seq 0 n), (c * n + k)%nat).
Proof.
  intros Hbody. induction n as [|n IH]; intros i pts k.
  - simpl. unfold ret. rewrite app_nil_r. f_equal. lia.
  - simpl for_upto. unfold bind. rewrite Hbody, IH.
    rewrite <- app_assoc. simpl app. f_equal.
    + f_equal. simpl. f_equal.
      * f_equal; lia.
      * rewrite <- seq_shift, map_map. apply map_ext. intros j.
        f_equal; lia.
    + lia.
Qed.

Lemma for_lt_push {E : Type} (c : nat) (g : nat -> nat -> E)
    (body : nat -> list E -> M (list E)) (bound : R) :
  (forall i pts k, body i pts k = (pts ++ [g i k], (c + k)%nat)) ->
  forall pts k,
    for_lt bound body 0 pts k =
    (pts ++ map (fun j => g j (c * j + k)%nat) (seq 0 (trips bound)),
     (c * trips bound + k)%nat).
Proof.
  intros Hbody pts k.
  rewrite (@for_lt_rounds _ bound body (trips bound)) by lia.
  rewrite (for_upto_push c g body Hbody). f_equal. f_equal.
  apply map_ext. intros j. f_equal. lia.
Qed.

(** ** [normalRandom]: what the rejection loop accepts *)

(** The loop leaves with the first pair whose [s] is not above 1; nothing
    keeps [s = 0] out. *)
Lemma normalRandom_loop_accepted (rnd : nat -> R) (fuel : nat) :
  forall k v1 s k',
    normalRandom_loop rnd fuel k = Some (v1, s, k') -> 0 <= s <= 1.
Proof.
  induction fuel as [|fuel IH]; intros k v1 s k' H; [discriminate|].
  simpl in H. unfold bindo, lift, Math_random in H.
  match type of H with
  | context [Rgt_dec ?e 1] => destruct (Rgt_dec e 1) as [Hgt|Hle]
  end.
  - eapply IH; eassumption.
  - unfold reto in H. injection H as _ Hs _. subst s.
    split; [|lra].
    apply Rplus_le_le_0_compat; apply Rle_0_sqr.
Qed.

(** C1, at the input that breaks it: when [Math.random()] returns 0.5 twice
    the first round of the rejection loop of [normalRandom] computes
    [v1 = v2 = 0] and [s = 0], and the loop leaves with that pair: [s = 0] is
    accepted, although it is outside [0 < s <= 1]. *)
Theorem normalRandom_loop_accepts_zero :
  exists (v1 s : R) (k' : nat),
    normalRandom_loop (fun _ => 0.5) 1 0%nat = Some (v1, s, k')
    /\ v1 = 0 /\ s = 0 /\ k' = 2%nat /\ ~ (0 < s <= 1).
Proof.
  simpl. unfold bindo, lift, Math_random.
  match goal with
  | |- context [Rgt_dec ?e 1] => destruct (Rgt_dec e 1) as [Hgt|Hle]
  end.
  - exfalso. lra.
  - do 3 eexists. split; [reflexivity|].
    repeat split; try lra.
Qed.

(** ** [shuffle] *)

Section ShuffleFacts.

Variable A : Type.
Variable undefined : A.

Lemma set_nth_middle (l1 l2 : list A) (a v : A) :
  set_nth undefined (l1 ++ a :: l2) (length l1) v = l1 ++ v :: l2.
Proof. induction l1 as [|b l1 IH]; simpl; [reflexivity|]. now rewrite IH. Qed.

Lemma set_nth_same (l : list A) (n : nat) :
  (n < length l)%nat -> set_nth undefined l n (nth n l undefined) = l.
Proof.
  revert n. induction l as [|a l IH]; intros [|n] Hn; simpl in *; try lia.
  - reflexivity.
  - rewrite IH by lia. reflexivity.
Qed.

(** Exchanging two elements that both exist, by the two writes of the
    source, permutes the array. *)
Lemma swap_Permutation (l : list A) (i c : nat) :
  (i <= c)%nat -> (c < length l)%nat ->
  Permutation l
    (set_nth undefined (set_nth undefined l c (nth i l undefined)) i
             (nth c l undefined)).
Proof.
  intros Hic Hc.
  destruct (Nat.eq_dec i c) as [->|Hne].
  - rewrite !set_nth_same by assumption. apply Permutation_refl.
  - destruct (nth_split l undefined (n := i)) as (l1 & rest & Hl & Hl1); [lia|].
    remember (nth i l undefined) as a eqn:Ha.
    assert (Hrest : (c - i - 1 < length rest)%nat).
    { rewrite Hl in Hc. rewrite length_app in Hc. simpl in Hc. lia. }
    destruct (nth_split rest undefined Hrest) as (l2 & l3 & Hr & Hl2).
    remember (nth (c - i - 1) rest undefined) as b eqn:Hb.
    assert (Hcl : c = length (l1 ++ a :: l2)).
    { rewrite length_app. simpl. lia. }
    assert (Hnc : nth c l undefined = b).
    { rewrite Hl, Hr.
      change (l1 ++ a :: l2 ++ b :: l3) with (l1 ++ (a :: l2) ++ b :: l3).
      rewrite app_assoc, Hcl. apply nth_middle. }
    rewrite Hnc.
    rewrite Hl at 2. rewrite Hr.
    change (l1 ++ a :: l2 ++ b :: l3) with (l1 ++ (a :: l2) ++ b :: l3).
    rewrite app_assoc. rewrite Hcl at 1. rewrite set_nth_middle.
    rewrite <- app_assoc. simpl app. rewrite <- Hl1 at 1.
    rewrite set_nth_middle.
    rewrite Hl, Hr. apply Permutation_app_head.
    transitivity (b :: a :: l2 ++ l3).
    + transitivity (a :: b :: l2 ++ l3); [|apply perm_swap].
      apply perm_skip. symmetry. apply Permutation_middle.
    + apply perm_skip. apply Permutation_middle.
Qed.

(** A draw in [[0, 1)] scaled by the counter floors to an index below the
    counter. *)
Lemma index_in_range (u : R) (counter : nat) :
  0 <= u < 1 ->
  (0 <= Math_floor (u * INR (S counter)) <= Z.of_nat counter)%Z.
Proof.
  intros [Hu0 Hu1]. unfold Math_floor.
  pose proof (Int_part_bounds (u * INR (S counter))) as [Hlo Hhi].
  pose proof (pos_INR counter) as Hc. rewrite S_INR in *.
  set (z := Int_part _) in *. split.
  - assert (H : (-1 < z)%Z); [|lia].
    apply lt_IZR. nra.
  - assert (H : (z < Z.of_nat counter + 1)%Z); [|lia].
    apply lt_IZR. rewrite plus_IZR, <- INR_IZR_INZ. nra.
Qed.

Lemma shuffle_loop_Permutation (rnd : nat -> R) :
  (forall j, 0 <= rnd j < 1) ->
  forall counter array k, (counter <= length array)%nat ->
    Permutation array (fst (shuffle_loop rnd undefined counter array k))
    /\ snd (shuffle_loop rnd undefined counter array k) = (k + counter)%nat.
Proof.
  intros Hrnd. induction counter as [|c IH]; intros array k Hlen.
  - simpl. split; [apply Permutation_refl | lia].
  - destruct (index_in_range c (Hrnd k)) as [Hi0 Hic].
    change (shuffle_loop rnd undefined (S c) array k) with
      (let index := Math_floor (rnd k * INR (S c)) in
       shuffle_loop rnd undefined c
         (js_set undefined
            (js_set undefined array (Z.of_nat c) (js_get undefined array index))
            index (js_get undefined array (Z.of_nat c)))
         (S k)).
    set (index := Math_floor (rnd k * INR (S c))) in *. cbv zeta.
    unfold js_get, js_set.
    assert (Hn : (Z.of_nat c <? 0)%Z = false) by lia.
    assert (Hi : (index <? 0)%Z = false) by lia.
    rewrite Hn, Hi, Nat2Z.id.
    pose proof (@swap_Permutation array (Z.to_nat index) c ltac:(lia) ltac:(lia))
      as Hswap.
    set (array' := set_nth undefined _ (Z.to_nat index) _) in *.
    destruct (IH array' (S k)) as [Hp Hk].
    { rewrite <- (Permutation_length Hswap). lia. }
    split; [|rewrite Hk; lia].
    etransitivity; eassumption.
Qed.

End ShuffleFacts.

(** ** What each generator returns, round by round *)

Section ClosedForms.

Variable rnd : nat -> R.

Lemma regressPlane_eq (numSamples noise : R) (k : nat) :
  regressPlane rnd numSamples noise k =
  (map (fun j => regressPlane_example rnd noise (4 * j + k)) (seq 0 (trips numSamples)),
   (4 * trips numSamples + k)%nat).
Proof.
  unfold regressPlane.
  rewrite (for_lt_push 4 (fun _ k => regressPlane_example rnd noise k)); reflexivity.
Qed.

Lemma regressGaussian_eq (numSamples noise : R) (k : nat) :
  regressGaussian rnd numSamples noise k =
  (map (fun j => regressGaussian_example rnd noise (4 * j + k))
       (seq 0 (trips numSamples)),
   (4 * trips numSamples + k)%nat).
Proof.
  unfold regressGaussian.
  rewrite (for_lt_push 4 (fun _ k => regressGaussian_example rnd noise k)); reflexivity.
Qed.

Lemma classifyXORData_eq (numSamples noise : R) (k : nat) :
  classifyXORData rnd numSamples noise k =
  (map (fun j => classifyXORData_example rnd noise (4 * j + k))
       (seq 0 (trips numSamples)),
   (4 * trips numSamples + k)%nat).
Proof.
  unfold classifyXORData.
  rewrite (for_lt_push 4 (fun _ k => classifyXORData_example rnd noise k)); reflexivity.
Qed.

Lemma genSpiral_eq (n noise deltaT label : R) (points : list Example2D.t) (k : nat) :
  genSpiral rnd n noise deltaT label points k =
  (points ++ map (fun j => classifySpiralData_example rnd n noise deltaT label j
                             (2 * j + k))
                 (seq 0 (trips n)),
   (2 * trips n + k)%nat).
Proof.
  unfold genSpiral.
  rewrite (for_lt_push 2 (classifySpiralData_example rnd n noise deltaT label));
    reflexivity.
Qed.

Lemma classifySpiralData_eq (numSamples noise : R) (k : nat) :
  let n := numSamples / 2 in
  classifySpiralData rnd numSamples noise k =
  (map (fun j => classifySpiralData_example rnd n noise 0 1 j (2 * j + k))
       (seq 0 (trips n))
   ++ map (fun j => classifySpiralData_example rnd n noise PI (-1) j
                      (2 * j + (2 * trips n + k)))
          (seq 0 (trips n)),
   (2 * trips n + (2 * trips n + k))%nat).
Proof.
  intros n. unfold classifySpiralData, bind, ret. fold n.
  rewrite genSpiral_eq. rewrite genSpiral_eq. reflexivity.
Qed.

Lemma classifyCircleData_ring_eq (radius numSamples noise rlo rhi : R)
    (points : list Example2D.t) (k : nat) :
  classifyCircleData_ring rnd radius numSamples noise rlo rhi points k =
  (points ++ map (fun j => classifyCircleData_example rnd radius noise rlo rhi
                             (4 * j + k))
                 (seq 0 (trips (numSamples / 2))),
   (4 * trips (numSamples / 2) + k)%nat).
Proof.
  unfold classifyCircleData_ring.
  rewrite (for_lt_push 4
             (fun _ k => classifyCircleData_example rnd radius noise rlo rhi k));
    reflexivity.
Qed.

Lemma classifyCircleData_eq (numSamples noise : R) (k : nat) :
  let c := trips (numSamples / 2) in
  classifyCircleData rnd numSamples noise k =
  (map (fun j => classifyCircleData_example rnd 5 noise 0 (5 * 0.5) (4 * j + k))
       (seq 0 c)
   ++ map (fun j => classifyCircleData_example rnd 5 noise (5 * 0.7) 5
                      (4 * j + (4 * c + k)))
          (seq 0 c),
   (4 * c + (4 * c + k))%nat).
Proof.
  intros c. unfold classifyCircleData, bind, ret.
  rewrite classifyCircleData_ring_eq. rewrite classifyCircleData_ring_eq.
  reflexivity.
Qed.

Lemma for_of_lines (numSamples noise sumOfRatio randRadius : R)
    (props : list PropertyForLines.t) :
  forall (points : list Example2D.t) (k : nat),
    fst (for_of props
      (fun prop points =>
         let num :=
           Math_floor (PropertyForLines.ratio prop / sumOfRatio * numSamples) in
         for_lt (IZR num)
           (fun _ points =>
              p <- randOnLine rnd (PropertyForLines.p0 prop)
                     (PropertyForLines.p1 prop) ;;
              nx <- randUniform rnd (- randRadius) randRadius ;;
              let noiseX := nx * noise in
              ny <- randUniform rnd (- randRadius) randRadius ;;
              let noiseY := ny * noise in
              ret (points ++ [Example2D.mk (Point.x p + noiseX) (Point.y p + noiseY)
                                           (PropertyForLines.label prop)]))
           0 points)
      points k) =
    points ++ lines_examples rnd numSamples noise sumOfRatio randRadius props k.
Proof.
  induction props as [|prop props IH]; intros points k.
  - simpl. now rewrite app_nil_r.
  - simpl for_of. unfold bind at 1. cbv zeta.
    rewrite (for_lt_push 3 (fun _ k => lines_example rnd noise randRadius prop k));
      [|reflexivity].
    rewrite IH. simpl lines_examples. rewrite trips_IZR.
    unfold quota. rewrite app_assoc. reflexivity.
Qed.

Lemma makeClassifyDataWithLines_eq (numSamples noise : R)
    (props : list PropertyForLines.t) (randRadius : R) (k : nat) :
  fst (makeClassifyDataWithLines rnd numSamples noise props randRadius k) =
  lines_examples rnd numSamples noise
    (fold_left (fun sum x => sum + PropertyForLines.ratio x) props 0)
    randRadius props k.
Proof. unfold makeClassifyDataWithLines. cbv zeta. now rewrite for_of_lines. Qed.

End ClosedForms.

(** ** [classifyTwoGaussData]: loops whose body may not return *)

(** A body that, when it returns, has appended one example satisfying [P]:
    a loop of [n] rounds that returns has appended [n] such examples. *)
Lemma for_upto_opt_push {E : Type} (P : E -> Prop)
    (body : nat -> list E -> Mo (list E)) :
  (forall i pts k pts' k',
     body i pts k = Some (pts', k') -> exists e, pts' = pts ++ [e] /\ P e) ->
  forall n i pts k pts' k',
    for_upto_opt n body i pts k = Some (pts', k') ->
    exists l, pts' = pts ++ l /\ length l = n /\ Forall P l.
Proof.
  intros Hbody. induction n as [|n IH]; intros i pts k pts' k' H.
  - injection H as <- _. exists []. rewrite app_nil_r. auto.
  - simpl in H. unfold bindo in H.
    destruct (body i pts k) as [[pts1 k1]|] eqn:Hb; [|discriminate].
    destruct (Hbody _ _ _ _ _ Hb) as (e & -> & He).
    destruct (IH _ _ _ _ _ H) as (l & -> & Hl & HP).
    exists (e :: l). rewrite <- app_assoc. simpl. auto.
Qed.

Lemma for_upto_opt_returns {S : Type} (body : nat -> S -> Mo S) :
  (forall i s k, body i s k <> None) ->
  forall n i s k, for_upto_opt n body i s k <> None.
Proof.
  intros Hbody. induction n as [|n IH]; intros i s k; [discriminate|].
  simpl. unfold bindo.
  destruct (body i s k) as [[s1 k1]|] eqn:Hb; [apply IH|].
  exfalso. eapply Hbody; eassumption.
Qed.

Section TwoGauss.

Variable rnd : nat -> R.

Lemma normalRandom_loop_returns (fuel : nat) :
  forall k,
    (exists j, (j < fuel)%nat
       /\ accepted (rnd (2 * j + k)%nat) (rnd (S (2 * j + k)))) ->
    normalRandom_loop rnd fuel k <> None.
Proof.
  induction fuel as [|fuel IH]; intros k (j & Hj & Hacc); [lia|].
  simpl. unfold bindo, lift, Math_random.
  match goal with
  | |- context [Rgt_dec ?e 1] => destruct (Rgt_dec e 1) as [Hgt|Hle]
  end; [|discriminate].
  apply IH. destruct j as [|j].
  - exfalso. apply Hacc. exact Hgt.
  - exists j. split; [lia|].
    replace (2 * j + S (S k))%nat with (2 * S j + k)%nat by lia. exact Hacc.
Qed.

Lemma normalRandom_returns (fuel : nat) (mean variance : R) (k : nat) :
  fair rnd fuel -> normalRandom rnd fuel mean variance k <> None.
Proof.
  intros Hfair. unfold normalRandom, bindo.
  destruct (normalRandom_loop rnd fuel k) as [[[v1 s] k']|] eqn:E.
  - discriminate.
  - exfalso. eapply normalRandom_loop_returns; [apply Hfair | exact E].
Qed.

Lemma genGauss_Some (fuel : nat) (numSamples variance cx cy label : R)
    (points : list Example2D.t) (k : nat) pts' k' :
  genGauss rnd fuel numSamples variance cx cy label points k = Some (pts', k') ->
  exists l, pts' = points ++ l /\ length l = trips (numSamples / 2)
    /\ Forall (fun e => Example2D.label e = label) l.
Proof.
  unfold genGauss.
  rewrite (@for_lt_opt_rounds _ (numSamples / 2) _ (trips (numSamples / 2))) by lia.
  apply for_upto_opt_push.
  intros i pts k0 pts1 k1 H. unfold bindo in H.
  destruct (normalRandom rnd fuel cx variance k0) as [[x kx]|]; [|discriminate].
  destruct (normalRandom rnd fuel cy variance kx) as [[y ky]|]; [|discriminate].
  injection H as <- _. eexists. split; reflexivity.
Qed.

Lemma genGauss_returns (fuel : nat) (numSamples variance cx cy label : R)
    (points : list Example2D.t) (k : nat) :
  fair rnd fuel ->
  genGauss rnd fuel numSamples variance cx cy label points k <> None.
Proof.
  intros Hfair. unfold genGauss.
  rewrite (@for_lt_opt_rounds _ (numSamples / 2) _ (trips (numSamples / 2))) by lia.
  apply for_upto_opt_returns. intros i pts k0. unfold bindo.
  destruct (normalRandom rnd fuel cx variance k0) as [[x kx]|] eqn:Ex.
  - destruct (normalRandom rnd fuel cy variance kx) as [[y ky]|] eqn:Ey.
    + discriminate.
    + exfalso. eapply normalRandom_returns; eassumption.
  - exfalso. eapply normalRandom_returns; eassumption.
Qed.

Lemma classifyTwoGaussData_Some (fuel : nat) (numSamples noise : R) (k : nat)
    pts k' :
  classifyTwoGaussData rnd fuel numSamples noise k = Some (pts, k') ->
  exists l1 l2, pts = l1 ++ l2
    /\ length l1 = trips (numSamples / 2) /\ length l2 = trips (numSamples / 2)
    /\ Forall (fun e => Example2D.label e = 1) l1
    /\ Forall (fun e => Example2D.label e = -1) l2.
Proof.
  unfold classifyTwoGaussData. cbv zeta. unfold bindo at 1.
  destruct (genGauss rnd fuel numSamples _ 2 2 1 [] k) as [[p1 k1]|] eqn:E1;
    [|discriminate].
  unfold bindo.
  destruct (genGauss rnd fuel numSamples _ (-2) (-2) (-1) p1 k1) as [[p2 k2]|] eqn:E2;
    [|discriminate].
  intros H. injection H as <- _.
  apply genGauss_Some in E1. destruct E1 as (l1 & -> & Hl1 & HP1).
  apply genGauss_Some in E2. destruct E2 as (l2 & -> & Hl2 & HP2).
  exists l1, l2. auto.
Qed.

Lemma classifyTwoGaussData_returns (fuel : nat) (numSamples noise : R) (k : nat) :
  fair rnd fuel -> classifyTwoGaussData rnd fuel numSamples noise k <> None.
Proof.
  intros Hfair. unfold classifyTwoGaussData. cbv zeta. unfold bindo at 1.
  destruct (genGauss rnd fuel numSamples _ 2 2 1 [] k) as [[p1 k1]|] eqn:E1.
  - unfold bindo.
    destruct (genGauss rnd fuel numSamples _ (-2) (-2) (-1) p1 k1)
      as [[p2 k2]|] eqn:E2; [discriminate|].
    exfalso. eapply genGauss_returns; eassumption.
  - exfalso. eapply genGauss_returns; eassumption.
Qed.

End TwoGauss.

(** Draws that are all 0.75 give [v1 = v2 = 0.5] and [s = 0.5]: every
    pair is accepted at once. *)
Lemma fair_const : fair (fun _ => 0.75) 1.
Proof. intros p. exists O. split; [lia|]. unfold accepted. lra. Qed.

(** ** The line-based generator: quotas and labels *)

Section Lines.

Variable rnd : nat -> R.

Lemma map_const_seq {B : Type} (b : B) (n : nat) :
  forall i, map (fun _ => b) (seq i n) = repeat b n.
Proof. induction n as [|n IH]; intros i; simpl; [reflexivity|]. now rewrite IH. Qed.

Lemma lines_examples_labels (numSamples noise sumOfRatio randRadius : R)
    (props : list PropertyForLines.t) :
  forall k,
    map Example2D.label
        (lines_examples rnd numSamples noise sumOfRatio randRadius props k) =
    flat_map (fun prop => repeat (PropertyForLines.label prop)
                                 (quota numSamples sumOfRatio prop)) props.
Proof.
  induction props as [|prop props IH]; intros k; simpl; [reflexivity|].
  rewrite map_app, map_map, IH. f_equal. simpl. apply map_const_seq.
Qed.

Lemma lines_examples_length (numSamples noise sumOfRatio randRadius : R)
    (props : list PropertyForLines.t) :
  forall k,
    length (lines_examples rnd numSamples noise sumOfRatio randRadius props k) =
    list_sum (map (quota numSamples sumOfRatio) props).
Proof.
  induction props as [|prop props IH]; intros k; simpl; [reflexivity|].
  rewrite length_app, length_map, length_seq, IH. reflexivity.
Qed.

Lemma lines_examples_class (numSamples noise sumOfRatio randRadius : R)
    (props : list PropertyForLines.t) :
  Forall (fun prop => is_class_label (PropertyForLines.label prop)) props ->
  forall k,
    Forall (fun e => is_class_label (Example2D.label e))
           (lines_examples rnd numSamples noise sumOfRatio randRadius props k).
Proof.
  induction 1 as [|prop props Hp _ IH]; intros k; simpl; [constructor|].
  apply Forall_app. split; [|apply IH].
  apply Forall_map, Forall_forall. intros j _. exact Hp.
Qed.

Lemma quota_nonpos (numSamples sumOfRatio : R) (prop : PropertyForLines.t) :
  PropertyForLines.ratio prop / sumOfRatio * numSamples < 1 ->
  quota numSamples sumOfRatio prop = O.
Proof.
  intros H. unfold quota, Math_floor.
  pose proof (Int_part_bounds
                (PropertyForLines.ratio prop / sumOfRatio * numSamples)) as [Hlo _].
  set (z := Int_part _) in *.
  assert (Hz : (z < 1)%Z) by (apply lt_IZR; lra).
  lia.
Qed.

Lemma lines_examples_nil (numSamples noise sumOfRatio randRadius : R)
    (props : list PropertyForLines.t) :
  numSamples <= 0 -> 0 < sumOfRatio ->
  Forall (fun prop => 0 <= PropertyForLines.ratio prop) props ->
  forall k, lines_examples rnd numSamples noise sumOfRatio randRadius props k = [].
Proof.
  intros Hn Hsum. induction 1 as [|prop props Hp _ IH]; intros k; simpl;
    [reflexivity|].
  rewrite quota_nonpos, IH; [reflexivity|].
  assert (H : 0 <= PropertyForLines.ratio prop / sumOfRatio).
  { apply Rmult_le_pos; [assumption|]. left. now apply Rinv_0_lt_compat. }
  nra.
Qed.

End Lines.

Lemma classifyOxtuData_props_class :
  Forall (fun prop => is_class_label (PropertyForLines.label prop))
         classifyOxtuData_props.
Proof.
  repeat (apply Forall_cons; [unfold is_class_label; simpl; auto|]).
  apply Forall_nil.
Qed.

Lemma classifyJavaData_props_class :
  Forall (fun prop => is_class_label (PropertyForLines.label prop))
         classifyJavaData_props.
Proof.
  repeat (apply Forall_cons; [unfold is_class_label; simpl; auto|]).
  apply Forall_nil.
Qed.

Lemma classifyOxtuData_props_ratio :
  0 < fold_left (fun sum x => sum + PropertyForLines.ratio x) classifyOxtuData_props 0
  /\ Forall (fun prop => 0 <= PropertyForLines.ratio prop) classifyOxtuData_props.
Proof.
  split; [simpl; lra|].
  repeat (apply Forall_cons; [simpl; lra|]). apply Forall_nil.
Qed.

Lemma classifyJavaData_props_ratio :
  0 < fold_left (fun sum x => sum + PropertyForLines.ratio x) classifyJavaData_props 0
  /\ Forall (fun prop => 0 <= PropertyForLines.ratio prop) classifyJavaData_props.
Proof.
  split; [simpl; lra|].
  repeat (apply Forall_cons; [simpl; lra|]). apply Forall_nil.
Qed.

(** ** Sizes of the datasets *)

Section Sizes.

Variable rnd : nat -> R.

Lemma classifySpiralData_length (numSamples noise : R) (k : nat) :
  length (fst (classifySpiralData rnd numSamples noise k)) =
  (2 * trips (numSamples / 2))%nat.
Proof.
  rewrite classifySpiralData_eq. cbv zeta. simpl fst.
  rewrite length_app, !length_map, !length_seq. lia.
Qed.

Lemma classifyCircleData_length (numSamples noise : R) (k : nat) :
  length (fst (classifyCircleData rnd numSamples noise k)) =
  (2 * trips (numSamples / 2))%nat.
Proof.
  rewrite classifyCircleData_eq. cbv zeta. simpl fst.
  rewrite length_app, !length_map, !length_seq. lia.
Qed.

Lemma classifyTwoGaussData_length (fuel : nat) (numSamples noise : R) (k : nat)
    pts k' :
  classifyTwoGaussData rnd fuel numSamples noise k = Some (pts, k') ->
  length pts = (2 * trips (numSamples / 2))%nat.
Proof.
  intros H. apply classifyTwoGaussData_Some in H.
  destruct H as (l1 & l2 & -> & H1 & H2 & _).
  rewrite length_app. lia.
Qed.

End Sizes.

(** C2, refuted as stated: with [numSamples = 1] each of the three
    generators returns 2 examples, not [2 * floor (1 / 2) = 0]. *)
Lemma classify_length_floor_counterexample :
  let claimed := (2 * Z.to_nat (1 / 2))%nat in
  length (fst (classifySpiralData (fun _ => 0.75) (IZR 1) 0 0%nat)) <> claimed
  /\ length (fst (classifyCircleData (fun _ => 0.75) (IZR 1) 0 0%nat)) <> claimed
  /\ exists pts k',
       classifyTwoGaussData (fun _ => 0.75) 1 (IZR 1) 0 0%nat = Some (pts, k')
       /\ length pts <> claimed.
Proof.
  cbv zeta.
  rewrite classifySpiralData_length, classifyCircleData_length, trips_half.
  change (Z.to_nat ((1 + 1) / 2)) with 1%nat.
  change (Z.to_nat (1 / 2)) with 0%nat.
  repeat split; try (simpl; lia).
  destruct (classifyTwoGaussData (fun _ => 0.75) 1 (IZR 1) 0 0%nat)
    as [[pts k']|] eqn:E.
  - exists pts, k'. split; [reflexivity|].
    apply classifyTwoGaussData_length in E. rewrite E, trips_half.
    change (Z.to_nat ((1 + 1) / 2)) with 1%nat. simpl. lia.
  - exfalso. revert E. apply classifyTwoGaussData_returns. apply fair_const.
Qed.

(** C2, amended: for every integer [numSamples] and every noise, each of
    [classifySpiralData], [classifyCircleData] and [classifyTwoGaussData]
    returns exactly [2 * ceil (numSamples / 2)] examples, so an odd
    [numSamples] yields [numSamples + 1] of them: the loops run while
    [i < numSamples / 2], a comparison of numbers.  [classifyTwoGaussData]
    returns whenever no rejection loop of [normalRandom] exceeds its
    budget. *)
Theorem classify_length_ceil (rnd : nat -> R) (numSamples : Z) (noise : R) (k : nat) :
  let c := Z.to_nat ((numSamples + 1) / 2) in
  length (fst (classifySpiralData rnd (IZR numSamples) noise k)) = (2 * c)%nat
  /\ length (fst (classifyCircleData rnd (IZR numSamples) noise k)) = (2 * c)%nat
  /\ forall fuel,
       (forall pts k',
          classifyTwoGaussData rnd fuel (IZR numSamples) noise k = Some (pts, k') ->
          length pts = (2 * c)%nat)
       /\ (fair rnd fuel ->
           exists pts k',
             classifyTwoGaussData rnd fuel (IZR numSamples) noise k = Some (pts, k')
             /\ length pts = (2 * c)%nat).
Proof.
  cbv zeta. rewrite <- trips_half.
  split; [apply classifySpiralData_length|].
  split; [apply classifyCircleData_length|].
  intros fuel. split.
  - intros pts k'. apply classifyTwoGaussData_length.
  - intros Hfair.
    destruct (classifyTwoGaussData rnd fuel (IZR numSamples) noise k)
      as [[pts k']|] eqn:E.
    + exists pts, k'. split; [reflexivity|].
      eapply classifyTwoGaussData_length; eassumption.
    + exfalso. revert E. now apply classifyTwoGaussData_returns.
Qed.

Lemma classify_length_ceil_witness :
  exists pts k',
    classifyTwoGaussData (fun _ => 0.75) 1 (IZR 3) 0 0%nat = Some (pts, k')
    /\ length pts = 4%nat.
Proof.
  exact (proj2 (proj2 (proj2 (classify_length_ceil (fun _ => 0.75) 3 0 0)) 1%nat)
               fair_const).
Defined.

(** ** Labels of the classification generators *)

Section Labels.

Variable rnd : nat -> R.

Lemma getCircleLabel_class (radius : R) (p c : Point.t) :
  is_class_label (getCircleLabel radius p c).
Proof.
  unfold getCircleLabel, is_class_label.
  destruct (Rlt_dec (dist p c) (radius * 0.5)); auto.
Qed.

Lemma getXORLabel_class (p : Point.t) : is_class_label (getXORLabel p).
Proof.
  unfold getXORLabel, is_class_label.
  destruct (Rge_dec (Point.x p * Point.y p) 0); auto.
Qed.

Lemma Forall_map_seq {B : Type} (P : B -> Prop) (f : nat -> B) (n : nat) :
  (forall j, P (f j)) -> Forall P (map f (seq 0 n)).
Proof. intros H. apply Forall_map, Forall_forall. intros j _. apply H. Qed.

Lemma classifySpiralData_class (numSamples noise : R) (k : nat) :
  Forall (fun e => is_class_label (Example2D.label e))
         (fst (classifySpiralData rnd numSamples noise k)).
Proof.
  rewrite classifySpiralData_eq. cbv zeta. simpl fst.
  apply Forall_app. split; apply Forall_map_seq; intros j; simpl;
    unfold is_class_label; auto.
Qed.

Lemma classifyCircleData_class (numSamples noise : R) (k : nat) :
  Forall (fun e => is_class_label (Example2D.label e))
         (fst (classifyCircleData rnd numSamples noise k)).
Proof.
  rewrite classifyCircleData_eq. cbv zeta. simpl fst.
  apply Forall_app. split; apply Forall_map_seq; intros j;
    apply getCircleLabel_class.
Qed.

Lemma classifyXORData_class (numSamples noise : R) (k : nat) :
  Forall (fun e => is_class_label (Example2D.label e))
         (fst (classifyXORData rnd numSamples noise k)).
Proof.
  rewrite classifyXORData_eq. simpl fst.
  apply Forall_map_seq. intros j. apply getXORLabel_class.
Qed.

Lemma classifyTwoGaussData_class (fuel : nat) (numSamples noise : R) (k : nat)
    pts k' :
  classifyTwoGaussData rnd fuel numSamples noise k = Some (pts, k') ->
  Forall (fun e => is_class_label (Example2D.label e)) pts.
Proof.
  intros H. apply classifyTwoGaussData_Some in H.
  destruct H as (l1 & l2 & -> & _ & _ & H1 & H2).
  apply Forall_app. split.
  - eapply Forall_impl; [|exact H1]. intros e He. left. exact He.
  - eapply Forall_impl; [|exact H2]. intros e He. right. exact He.
Qed.

End Labels.

(** C3: whatever [numSamples] and [noise], every example a classification
    generator returns has label 1 or -1; [classifyTwoGaussData] returns
    whenever no rejection loop of [normalRandom] exceeds its budget. *)
Theorem classification_labels (rnd : nat -> R) (numSamples noise : R) (k : nat) :
  let class := Forall (fun e => is_class_label (Example2D.label e)) in
  class (fst (classifySpiralData rnd numSamples noise k))
  /\ class (fst (classifyCircleData rnd numSamples noise k))
  /\ class (fst (classifyXORData rnd numSamples noise k))
  /\ class (fst (classifyOxtuData rnd numSamples noise k))
  /\ class (fst (classifyJavaData rnd numSamples noise k))
  /\ forall fuel,
       (forall pts k',
          classifyTwoGaussData rnd fuel numSamples noise k = Some (pts, k') ->
          class pts)
       /\ (fair rnd fuel ->
           exists pts k',
             classifyTwoGaussData rnd fuel numSamples noise k = Some (pts, k')
             /\ class pts).
Proof.
  cbv zeta.
  split; [apply classifySpiralData_class|].
  split; [apply classifyCircleData_class|].
  split; [apply classifyXORData_class|].
  split.
  { unfold classifyOxtuData. rewrite makeClassifyDataWithLines_eq.
    apply lines_examples_class, classifyOxtuData_props_class. }
  split.
  { unfold classifyJavaData. rewrite makeClassifyDataWithLines_eq.
    apply lines_examples_class, classifyJavaData_props_class. }
  intros fuel. split.
  - intros pts k'. apply classifyTwoGaussData_class.
  - intros Hfair.
    destruct (classifyTwoGaussData rnd fuel numSamples noise k)
      as [[pts k']|] eqn:E.
    + exists pts, k'. split; [reflexivity|].
      eapply classifyTwoGaussData_class; eassumption.
    + exfalso. revert E. now apply classifyTwoGaussData_returns.
Qed.

Lemma classification_labels_witness :
  exists pts k',
    classifyTwoGaussData (fun _ => 0.75) 1 4 0.25 0%nat = Some (pts, k')
    /\ Forall (fun e => is_class_label (Example2D.label e)) pts.
Proof.
  exact (proj2 (proj2 (proj2 (proj2 (proj2 (proj2
           (classification_labels (fun _ => 0.75) 4 0.25 0))))) 1%nat)
               fair_const).
Defined.

(** ** No samples asked for *)

(** C9: for every [numSamples <= 0], negative values included, and every
    noise, each of the eight exported generators returns the empty
    sequence (and draws nothing). *)
Theorem nonpositive_numSamples_empty (rnd : nat -> R) (numSamples noise : R)
    (k : nat) :
  numSamples <= 0 ->
  (forall fuel, classifyTwoGaussData rnd fuel numSamples noise k = Some ([], k))
  /\ classifySpiralData rnd numSamples noise k = ([], k)
  /\ classifyCircleData rnd numSamples noise k = ([], k)
  /\ classifyXORData rnd numSamples noise k = ([], k)
  /\ fst (classifyOxtuData rnd numSamples noise k) = []
  /\ fst (classifyJavaData rnd numSamples noise k) = []
  /\ regressPlane rnd numSamples noise k = ([], k)
  /\ regressGaussian rnd numSamples noise k = ([], k).
Proof.
  intros Hn.
  assert (Hhalf : trips (numSamples / 2) = O) by (apply trips_nonpos; lra).
  assert (Hfull : trips numSamples = O) by (apply trips_nonpos; lra).
  repeat split.
  - intros fuel. unfold classifyTwoGaussData, genGauss. cbv zeta.
    unfold bindo.
    rewrite (@for_lt_opt_rounds _ (numSamples / 2) _ O) by lia. simpl.
    rewrite (@for_lt_opt_rounds _ (numSamples / 2) _ O) by lia. reflexivity.
  - rewrite classifySpiralData_eq. cbv zeta. rewrite Hhalf. reflexivity.
  - rewrite classifyCircleData_eq. cbv zeta. rewrite Hhalf. reflexivity.
  - rewrite classifyXORData_eq, Hfull. reflexivity.
  - unfold classifyOxtuData. rewrite makeClassifyDataWithLines_eq.
    destruct classifyOxtuData_props_ratio. now apply lines_examples_nil.
  - unfold classifyJavaData. rewrite makeClassifyDataWithLines_eq.
    destruct classifyJavaData_props_ratio. now apply lines_examples_nil.
  - rewrite regressPlane_eq, Hfull. reflexivity.
  - rewrite regressGaussian_eq, Hfull. reflexivity.
Qed.

Lemma nonpositive_numSamples_empty_witness :
  -3 <= 0 /\ regressPlane (fun _ => 0.75) (-3) 0.5 0%nat = ([], 0%nat)
  /\ fst (classifyJavaData (fun _ => 0.75) (-3) 0.5 0%nat) = [].
Proof.
  assert (H : -3 <= 0) by lra.
  pose proof (nonpositive_numSamples_empty (fun _ => 0.75) 0.5 0 H) as T.
  split; [exact H|]. split; [apply T|apply T].
Defined.

(** ** [shuffle] permutes *)

(** C5: for every array and every sequence of draws of [Math.random()]
    (values in [[0, 1)]), [shuffle] ends after as many rounds as the array
    has elements and leaves a permutation of the original elements: same
    multiset, same length, and an array of at most one element is
    unchanged. *)
Theorem shuffle_permutation (A : Type) (undefined : A) (rnd : nat -> R)
    (array : list A) (k : nat) :
  (forall j, 0 <= rnd j < 1) ->
  let array' := fst (shuffle rnd undefined array k) in
  Permutation array array'
  /\ length array' = length array
  /\ snd (shuffle rnd undefined array k) = (k + length array)%nat
  /\ ((length array <= 1)%nat -> array' = array).
Proof.
  intros Hrnd array'. unfold shuffle in *.
  destruct (@shuffle_loop_Permutation A undefined rnd Hrnd (length array) array k)
    as [Hperm Hk]; [lia|].
  fold array' in Hperm.
  split; [exact Hperm|].
  split; [symmetry; apply Permutation_length; exact Hperm|].
  split; [exact Hk|].
  intros Hlen. destruct array as [|a [|b rest]]; simpl in Hlen; try lia.
  - symmetry. apply Permutation_nil. exact Hperm.
  - apply Permutation_length_1_inv. exact Hperm.
Qed.

Lemma shuffle_permutation_witness :
  (forall j : nat, 0 <= (fun _ : nat => 0.75) j < 1)
  /\ Permutation [1; 2; 3]%nat
       (fst (shuffle (fun _ => 0.75) O [1; 2; 3]%nat 0%nat)).
Proof.
  assert (H : forall j : nat, 0 <= (fun _ : nat => 0.75) j < 1) by (intros j; lra).
  split; [exact H|].
  exact (proj1 (shuffle_permutation O (fun _ : nat => 0.75) [1; 2; 3]%nat 0 H)).
Defined.

(** ** The line-based generator: how many examples, in which order *)

Section LinesCount.

Variable rnd : nat -> R.

Lemma floor_quota_nonneg (numSamples : R) (props : list PropertyForLines.t)
    (prop : PropertyForLines.t) :
  0 <= numSamples -> 0 < sumOfRatio props -> 0 <= PropertyForLines.ratio prop ->
  (0 <= floor_quota numSamples props prop)%Z.
Proof.
  intros Hn Hsum Hr. unfold floor_quota, Math_floor.
  assert (H : 0 <= PropertyForLines.ratio prop / sumOfRatio props * numSamples).
  { apply Rmult_le_pos; [|assumption].
    apply Rmult_le_pos; [assumption|]. left. now apply Rinv_0_lt_compat. }
  pose proof (Int_part_bounds
                (PropertyForLines.ratio prop / sumOfRatio props * numSamples))
    as [_ Hhi].
  set (z := Int_part _) in *.
  assert (Hz : (-1 < z)%Z) by (apply lt_IZR; lra).
  lia.
Qed.

Lemma list_sum_to_nat (f : PropertyForLines.t -> Z) (l : list PropertyForLines.t) :
  Forall (fun prop => (0 <= f prop)%Z) l ->
  Z.of_nat (list_sum (map (fun prop => Z.to_nat (f prop)) l)) =
  fold_right Z.add 0%Z (map f l).
Proof.
  induction 1 as [|prop l Hp _ IH]; simpl; [reflexivity|].
  rewrite Nat2Z.inj_add, IH. lia.
Qed.

Lemma makeClassifyDataWithLines_length (numSamples noise : R)
    (props : list PropertyForLines.t) (randRadius : R) (k : nat) :
  length (fst (makeClassifyDataWithLines rnd numSamples noise props randRadius k)) =
  list_sum (map (fun prop => Z.to_nat (floor_quota numSamples props prop)) props).
Proof. rewrite makeClassifyDataWithLines_eq. apply lines_examples_length. Qed.

End LinesCount.

(** C4, refuted as stated: descriptors with ratios -1 and 3 have total
    ratio 2 > 0; with [numSamples = 100] the floors are -50 and 150, whose
    sum is 100, but the generator returns 150 examples: a negative quota
    runs its loop zero times. *)
Lemma lines_negative_ratio_counterexample :
  let props := [line 1 (-1) 0 0 1 1; line (-1) 3 0 0 1 1] in
  props <> [] /\ 0 < sumOfRatio props /\ 0 <= 100
  /\ map (floor_quota 100 props) props = [(-50)%Z; 150%Z]
  /\ length (fst (makeClassifyDataWithLines (fun _ => 0.75) 100 0 props 3 0%nat))
     = 150%nat
  /\ Z.of_nat
       (length (fst (makeClassifyDataWithLines (fun _ => 0.75) 100 0 props 3 0%nat)))
     <> fold_right Z.add 0%Z (map (floor_quota 100 props) props).
Proof.
  cbv zeta.
  assert (Hq : map (floor_quota 100 [line 1 (-1) 0 0 1 1; line (-1) 3 0 0 1 1])
                   [line 1 (-1) 0 0 1 1; line (-1) 3 0 0 1 1]
               = [(-50)%Z; 150%Z]).
  { unfold floor_quota, Math_floor, sumOfRatio. simpl.
    f_equal; [|f_equal]; apply Int_part_spec; lra. }
  assert (Hlen : length (fst (makeClassifyDataWithLines (fun _ => 0.75) 100 0
                   [line 1 (-1) 0 0 1 1; line (-1) 3 0 0 1 1] 3 0%nat)) = 150%nat).
  { rewrite makeClassifyDataWithLines_length.
    rewrite <- (map_map (floor_quota 100 _) Z.to_nat), Hq. reflexivity. }
  split; [discriminate|].
  split; [unfold sumOfRatio; simpl; lra|].
  split; [lra|].
  split; [exact Hq|].
  split; [exact Hlen|].
  rewrite Hlen, Hq. simpl. lia.
Qed.

Section RoundedLines.

Variable rnd : nat -> R.
Variables add sub mul div : R -> R -> R.

Lemma for_of_grouped (q : PropertyForLines.t -> Z)
    (g : PropertyForLines.t -> nat -> Example2D.t)
    (body : PropertyForLines.t -> nat -> list Example2D.t -> M (list Example2D.t)) :
  (forall prop i pts k, body prop i pts k = (pts ++ [g prop k], (3 + k)%nat)) ->
  forall props points k,
    fst (for_of props (fun prop points => for_lt (IZR (q prop)) (body prop) 0 points)
                points k) =
    points ++ grouped q g props k.
Proof.
  intros Hbody. induction props as [|prop props IH]; intros points k.
  - simpl. now rewrite app_nil_r.
  - simpl for_of. unfold bind at 1.
    rewrite (for_lt_push 3 (fun _ k => g prop k)) by (intros; apply Hbody).
    rewrite IH, trips_IZR. simpl grouped. rewrite app_assoc. reflexivity.
Qed.

Lemma grouped_labels (q : PropertyForLines.t -> Z)
    (g : PropertyForLines.t -> nat -> Example2D.t) :
  (forall prop k, Example2D.label (g prop k) = PropertyForLines.label prop) ->
  forall props k,
    map Example2D.label (grouped q g props k) =
    flat_map (fun prop => repeat (PropertyForLines.label prop) (Z.to_nat (q prop)))
             props.
Proof.
  intros Hg. induction props as [|prop props IH]; intros k; simpl; [reflexivity|].
  rewrite map_app, map_map, IH. f_equal.
  rewrite <- (map_const_seq (PropertyForLines.label prop) (Z.to_nat (q prop)) 0).
  apply map_ext. intros j. apply Hg.
Qed.

Lemma grouped_length (q : PropertyForLines.t -> Z)
    (g : PropertyForLines.t -> nat -> Example2D.t) :
  forall props k,
    length (grouped q g props k) = list_sum (map (fun prop => Z.to_nat (q prop)) props).
Proof.
  induction props as [|prop props IH]; intros k; simpl; [reflexivity|].
  rewrite length_app, length_map, length_seq, IH. reflexivity.
Qed.

Lemma Rounded_makeClassifyDataWithLines_eq (numSamples noise : R)
    (props : list PropertyForLines.t) (randRadius : R) (k : nat) :
  fst (Rounded.makeClassifyDataWithLines rnd add sub mul div
         numSamples noise props randRadius k) =
  grouped (Rounded.floor_quota add mul div numSamples props)
          (Rounded.lines_example rnd add sub mul noise randRadius) props k.
Proof.
  unfold Rounded.makeClassifyDataWithLines. cbv zeta.
  rewrite (for_of_grouped (Rounded.floor_quota add mul div numSamples props)
             (Rounded.lines_example rnd add sub mul noise randRadius));
    reflexivity.
Qed.

End RoundedLines.

(** With exact operations the generator is the one over the reals. *)
Lemma Rounded_exact (rnd : nat -> R) (numSamples noise : R)
    (props : list PropertyForLines.t) (randRadius : R) :
  Rounded.makeClassifyDataWithLines rnd Rplus Rminus Rmult Rdiv
    numSamples noise props randRadius =
  makeClassifyDataWithLines rnd numSamples noise props randRadius.
Proof. reflexivity. Qed.

Lemma exact_rounded : rounded Rplus Rmult Rdiv.
Proof.
  constructor; try reflexivity.
  - intros a b Ha Hb. now apply Rmult_le_pos.
  - intros a b Ha Hb. apply Rmult_le_pos; [assumption|].
    left. now apply Rinv_0_lt_compat.
Qed.

Ltac is_binary64 m e :=
  exists m, e; split; [reflexivity|]; split; [lia|]; simpl; lra.

(** C4, amended: for every non-negative [numSamples], every noise and every
    non-empty descriptor list with non-negative ratios and positive total
    ratio, [makeClassifyDataWithLines] (hence [classifyOxtuData] and
    [classifyJavaData]) returns exactly the sum over the descriptors of
    [floor (ratio_i / totalRatio * numSamples)] examples, the total, the
    quotient and the product being the numbers the program computes, grouped
    by descriptor in list order, each with its descriptor's label; two
    descriptors with ratios 1 and 3 and [numSamples = 100] give 100
    examples, 25 then 75. *)
Theorem lines_quota_rounded (rnd : nat -> R) (add sub mul div : R -> R -> R)
    (noise randRadius : R) (k : nat) :
  rounded add mul div ->
  let run numSamples props :=
    fst (Rounded.makeClassifyDataWithLines rnd add sub mul div
           numSamples noise props randRadius k) in
  let quota := Rounded.floor_quota add mul div in
  (forall (numSamples : R) (props : list PropertyForLines.t),
     props <> [] -> 0 <= numSamples -> 0 < Rounded.sumOfRatio add props ->
     Forall (fun prop => 0 <= PropertyForLines.ratio prop) props ->
     Z.of_nat (length (run numSamples props)) =
       fold_right Z.add 0%Z (map (quota numSamples props) props)
     /\ map Example2D.label (run numSamples props) =
        flat_map (fun prop => repeat (PropertyForLines.label prop)
                                     (Z.to_nat (quota numSamples props prop)))
                 props)
  /\ (forall (label1 label2 : R) (a b c d : Point.t),
        let props := [PropertyForLines.mk label1 1 a b;
                      PropertyForLines.mk label2 3 c d] in
        length (run 100 props) = 100%nat
        /\ map Example2D.label (run 100 props) = repeat label1 25 ++ repeat label2 75).
Proof.
  intros Hr run quota. subst run quota. split.
  - intros numSamples props _ Hn Hsum Hratio.
    rewrite Rounded_makeClassifyDataWithLines_eq. split.
    + rewrite grouped_length. apply list_sum_to_nat.
      eapply Forall_impl; [|exact Hratio]. intros prop Hp.
      unfold Rounded.floor_quota, Math_floor.
      pose proof (@div_nonneg _ _ _ Hr _ _ Hp Hsum) as Hd.
      pose proof (@mul_nonneg _ _ _ Hr _ _ Hd Hn) as Hm.
      destruct (Int_part_bounds
                  (mul (div (PropertyForLines.ratio prop)
                            (Rounded.sumOfRatio add props)) numSamples)) as [_ Hhi].
      set (z := Int_part _) in *.
      assert (Hz : (-1 < z)%Z) by (apply lt_IZR; lra). lia.
    + apply grouped_labels. reflexivity.
  - intros label1 label2 a b c d props.
    assert (Hsum : Rounded.sumOfRatio add props = 4).
    { unfold Rounded.sumOfRatio, props. simpl.
      rewrite (@add_exact _ _ _ Hr 0 1) by is_binary64 1%Z 0%Z.
      rewrite (@add_exact _ _ _ Hr (0 + 1) 3) by is_binary64 4%Z 0%Z. lra. }
    assert (Hq1 : Rounded.floor_quota add mul div 100 props
                    (PropertyForLines.mk label1 1 a b) = 25%Z).
    { unfold Rounded.floor_quota. rewrite Hsum. cbn [PropertyForLines.ratio].
      rewrite (@div_exact _ _ _ Hr 1 4) by (lra || is_binary64 1%Z (-2)%Z).
      rewrite (@mul_exact _ _ _ Hr (1 / 4) 100) by is_binary64 25%Z 0%Z.
      apply Int_part_spec. lra. }
    assert (Hq2 : Rounded.floor_quota add mul div 100 props
                    (PropertyForLines.mk label2 3 c d) = 75%Z).
    { unfold Rounded.floor_quota. rewrite Hsum. cbn [PropertyForLines.ratio].
      rewrite (@div_exact _ _ _ Hr 3 4) by (lra || is_binary64 3%Z (-2)%Z).
      rewrite (@mul_exact _ _ _ Hr (3 / 4) 100) by is_binary64 75%Z 0%Z.
      apply Int_part_spec. lra. }
    rewrite Rounded_makeClassifyDataWithLines_eq. split.
    + rewrite grouped_length. unfold props at 2. cbn [map].
      rewrite Hq1, Hq2. reflexivity.
    + rewrite grouped_labels by (intros; reflexivity).
      unfold props at 2. cbn [flat_map PropertyForLines.label].
      rewrite Hq1, Hq2, app_nil_r. reflexivity.
Qed.

Lemma lines_quota_rounded_witness :
  let props := [line 1 0.5 0 0 1 1; line (-1) 1.5 0 0 1 1] in
  let pts := fst (makeClassifyDataWithLines (fun _ => 0.75) 10 0.5 props 3 0%nat) in
  rounded Rplus Rmult Rdiv
  /\ props <> [] /\ 0 <= 10 /\ 0 < Rounded.sumOfRatio Rplus props
  /\ Forall (fun prop => 0 <= PropertyForLines.ratio prop) props
  /\ Z.of_nat (length pts) =
     fold_right Z.add 0%Z (map (Rounded.floor_quota Rplus Rmult Rdiv 10 props) props).
Proof.
  cbv zeta.
  assert (H1 : [line 1 0.5 0 0 1 1; line (-1) 1.5 0 0 1 1] <> []) by discriminate.
  assert (H2 : 0 <= 10) by lra.
  assert (H3 : 0 < Rounded.sumOfRatio Rplus
                     [line 1 0.5 0 0 1 1; line (-1) 1.5 0 0 1 1])
    by (unfold Rounded.sumOfRatio; simpl; lra).
  assert (H4 : Forall (fun prop => 0 <= PropertyForLines.ratio prop)
                      [line 1 0.5 0 0 1 1; line (-1) 1.5 0 0 1 1])
    by (repeat (apply Forall_cons; [simpl; lra|]); apply Forall_nil).
  split; [exact exact_rounded|].
  repeat (split; [assumption|]).
  exact (proj1 (proj1 (lines_quota_rounded (fun _ => 0.75) Rminus 0.5 3 0 exact_rounded)
                      10 _ H1 H2 H3 H4)).
Defined.

(** ** Labels without noise *)

Section NoNoise.

Variable rnd : nat -> R.




End NoNoise.


(** ** [regressPlane] *)

(** The scale of [regressPlane] divides by 10. *)
Lemma regressPlane_labelScale (v : R) :
  d3_scale_linear (-10, 10) (-1, 1) false v = v / 10.
Proof. unfold d3_scale_linear. lra. Qed.

(** C7: every example of [regressPlane] has as label the unclamped linear
    map from [[-10, 10]] to [[-1, 1]] of [(x + noiseX) + (y + noiseY)], that
    is this sum divided by 10; with [noise = 0] an example at [(5, 5)] has
    label 1. *)
Theorem regressPlane_linear_label (rnd : nat -> R) (numSamples noise : R) (k : nat) :
  fst (regressPlane rnd numSamples noise k) =
  map (fun j =>
         let p := (4 * j + k)%nat in
         let x := uniform (-6) 6 (rnd p) in
         let y := uniform (-6) 6 (rnd (S p)) in
         let noiseX := uniform (-6) 6 (rnd (S (S p))) * noise in
         let noiseY := uniform (-6) 6 (rnd (S (S (S p)))) * noise in
         Example2D.mk x y (((x + noiseX) + (y + noiseY)) / 10))
      (seq 0 (trips numSamples))
  /\ forall e, In e (fst (regressPlane rnd numSamples 0 k)) ->
               Example2D.x e = 5 -> Example2D.y e = 5 -> Example2D.label e = 1.
Proof.
  split.
  - rewrite regressPlane_eq. simpl fst. apply map_ext. intros j.
    unfold regressPlane_example. cbv zeta. rewrite regressPlane_labelScale.
    reflexivity.
  - intros e He Hx Hy. rewrite regressPlane_eq in He. simpl fst in He.
    apply in_map_iff in He. destruct He as (j & <- & _).
    unfold regressPlane_example in *. cbv zeta in *.
    cbn [Example2D.x Example2D.y Example2D.label] in *.
    rewrite regressPlane_labelScale, !Rmult_0_r, !Rplus_0_r, Hx, Hy. lra.
Qed.

Lemma regressPlane_linear_label_witness :
  let e := regressPlane_example (fun _ => 11 / 12) 0 0 in
  In e (fst (regressPlane (fun _ => 11 / 12) 1 0 0%nat))
  /\ Example2D.x e = 5 /\ Example2D.y e = 5 /\ Example2D.label e = 1.
Proof.
  cbv zeta.
  assert (Hin : In (regressPlane_example (fun _ => 11 / 12) 0 0)
                   (fst (regressPlane (fun _ => 11 / 12) 1 0 0%nat))).
  { rewrite regressPlane_eq, (trips_IZR 1). left. reflexivity. }
  assert (Hx : Example2D.x (regressPlane_example (fun _ => 11 / 12) 0 0) = 5)
    by (unfold regressPlane_example, uniform; simpl; lra).
  assert (Hy : Example2D.y (regressPlane_example (fun _ => 11 / 12) 0 0) = 5)
    by (unfold regressPlane_example, uniform; simpl; lra).
  repeat (split; [assumption|]).
  exact (proj2 (regressPlane_linear_label (fun _ => 11 / 12) 1 0 0) _ Hin Hx Hy).
Defined.

(** ** Coordinates do not depend on the noise *)

Section Coordinates.

Variable rnd : nat -> R.

Lemma regressPlane_coords (numSamples noise : R) (k : nat) :
  map coords (fst (regressPlane rnd numSamples noise k)) =
  map (fun j => square_coords 6 rnd (4 * j + k)) (seq 0 (trips numSamples)).
Proof. rewrite regressPlane_eq. cbn [fst]. rewrite map_map. reflexivity. Qed.

Lemma regressGaussian_coords (numSamples noise : R) (k : nat) :
  map coords (fst (regressGaussian rnd numSamples noise k)) =
  map (fun j => square_coords 6 rnd (4 * j + k)) (seq 0 (trips numSamples)).
Proof. rewrite regressGaussian_eq. cbn [fst]. rewrite map_map. reflexivity. Qed.

Lemma classifyXORData_coords (numSamples noise : R) (k : nat) :
  map coords (fst (classifyXORData rnd numSamples noise k)) =
  map (fun j => padded_coords rnd (4 * j + k)) (seq 0 (trips numSamples)).
Proof. rewrite classifyXORData_eq. cbn [fst]. rewrite map_map. reflexivity. Qed.

Lemma classifyCircleData_coords (numSamples noise : R) (k : nat) :
  let c := trips (numSamples / 2) in
  map coords (fst (classifyCircleData rnd numSamples noise k)) =
  map (fun j => ring_coords 0 (5 * 0.5) rnd (4 * j + k)) (seq 0 c)
  ++ map (fun j => ring_coords (5 * 0.7) 5 rnd (4 * (j + c) + k)) (seq 0 c).
Proof.
  intros c. rewrite classifyCircleData_eq. cbv zeta. cbn [fst]. fold c.
  rewrite map_app, !map_map. f_equal. apply map_ext. intros j.
  replace (4 * j + (4 * c + k))%nat with (4 * (j + c) + k)%nat by lia.
  reflexivity.
Qed.

End Coordinates.

Lemma square_coords_ext (radius : R) (rnd1 rnd2 : nat -> R) (k : nat) :
  same_coordinate_draws rnd1 rnd2 k ->
  forall j, square_coords radius rnd1 (4 * j + k) = square_coords radius rnd2 (4 * j + k).
Proof.
  intros H j. destruct (H j) as [H0 H1]. unfold square_coords.
  now rewrite H0, H1.
Qed.

Lemma padded_coords_ext (rnd1 rnd2 : nat -> R) (k : nat) :
  same_coordinate_draws rnd1 rnd2 k ->
  forall j, padded_coords rnd1 (4 * j + k) = padded_coords rnd2 (4 * j + k).
Proof.
  intros H j. destruct (H j) as [H0 H1]. unfold padded_coords.
  now rewrite H0, H1.
Qed.

Lemma ring_coords_ext (rlo rhi : R) (rnd1 rnd2 : nat -> R) (k : nat) :
  same_coordinate_draws rnd1 rnd2 k ->
  forall j, ring_coords rlo rhi rnd1 (4 * j + k) = ring_coords rlo rhi rnd2 (4 * j + k).
Proof.
  intros H j. destruct (H j) as [H0 H1]. unfold ring_coords.
  now rewrite H0, H1.
Qed.

(** C10: in [classifyCircleData], [classifyXORData], [regressPlane] and
    [regressGaussian] the coordinates of the examples are the sampled (for
    XOR, padded) coordinates, computed from the first two draws of each round
    alone; two runs whose draws agree there, whatever their noise draws and
    noise levels, return examples with the same coordinates. *)
Theorem coordinates_ignore_noise (rnd1 rnd2 : nat -> R)
    (numSamples noise1 noise2 : R) (k : nat) :
  let c := trips (numSamples / 2) in
  (map coords (fst (classifyCircleData rnd1 numSamples noise1 k)) =
     map (fun j => ring_coords 0 (5 * 0.5) rnd1 (4 * j + k)) (seq 0 c)
     ++ map (fun j => ring_coords (5 * 0.7) 5 rnd1 (4 * (j + c) + k)) (seq 0 c)
   /\ map coords (fst (classifyXORData rnd1 numSamples noise1 k)) =
      map (fun j => padded_coords rnd1 (4 * j + k)) (seq 0 (trips numSamples))
   /\ map coords (fst (regressPlane rnd1 numSamples noise1 k)) =
      map (fun j => square_coords 6 rnd1 (4 * j + k)) (seq 0 (trips numSamples))
   /\ map coords (fst (regressGaussian rnd1 numSamples noise1 k)) =
      map (fun j => square_coords 6 rnd1 (4 * j + k)) (seq 0 (trips numSamples)))
  /\ (same_coordinate_draws rnd1 rnd2 k ->
      map coords (fst (classifyCircleData rnd1 numSamples noise1 k)) =
        map coords (fst (classifyCircleData rnd2 numSamples noise2 k))
      /\ map coords (fst (classifyXORData rnd1 numSamples noise1 k)) =
         map coords (fst (classifyXORData rnd2 numSamples noise2 k))
      /\ map coords (fst (regressPlane rnd1 numSamples noise1 k)) =
         map coords (fst (regressPlane rnd2 numSamples noise2 k))
      /\ map coords (fst (regressGaussian rnd1 numSamples noise1 k)) =
         map coords (fst (regressGaussian rnd2 numSamples noise2 k))).
Proof.
  intros c. split.
  - split; [apply classifyCircleData_coords|].
    split; [apply classifyXORData_coords|].
    split; [apply regressPlane_coords | apply regressGaussian_coords].
  - intros Hsame.
    rewrite !classifyCircleData_coords, !classifyXORData_coords,
      !regressPlane_coords, !regressGaussian_coords. cbv zeta. fold c.
    split; [|split; [|split]].
    + f_equal; apply map_ext; intros j; now apply ring_coords_ext.
    + apply map_ext. intros j. now apply padded_coords_ext.
    + apply map_ext. intros j. now apply square_coords_ext.
    + apply map_ext. intros j. now apply square_coords_ext.
Qed.

Lemma coordinates_ignore_noise_witness :
  let rnd1 := fun j : nat => if Nat.even (j / 2) then 0.25 else 0 in
  let rnd2 := fun j : nat => if Nat.even (j / 2) then 0.25 else 0.5 in
  same_coordinate_draws rnd1 rnd2 0
  /\ map coords (fst (regressPlane rnd1 3 0.5 0%nat)) =
     map coords (fst (regressPlane rnd2 3 1 0%nat)).
Proof.
  cbv zeta.
  assert (H : same_coordinate_draws
                (fun j : nat => if Nat.even (j / 2) then 0.25 else 0)
                (fun j : nat => if Nat.even (j / 2) then 0.25 else 0.5) 0).
  { intros j.
    assert (H0 : ((4 * j + 0) / 2 = 2 * j)%nat).
    { replace (4 * j + 0)%nat with (2 * j * 2)%nat by lia. apply Nat.div_mul. lia. }
    assert (H1 : (S (4 * j + 0) / 2 = 2 * j)%nat).
    { replace (S (4 * j + 0))%nat with (1 + 2 * j * 2)%nat by lia.
      rewrite Nat.div_add by lia. reflexivity. }
    rewrite H0, H1, Nat.even_mul. split; reflexivity. }
  split; [exact H|].
  exact (proj1 (proj2 (proj2 (proj2
           (coordinates_ignore_noise _ _ 3 0.5 1 0) H)))).
Defined.

(** ** [regressGaussian]: the label of largest absolute value *)

Lemma regressGaussian_getLabel_fold (x y : R) :
  regressGaussian_getLabel x y =
  fold_left max_abs_step (map (gaussian_value x y) gaussians) 0.
Proof. reflexivity. Qed.

Lemma max_abs_step_cases (label v : R) :
  (max_abs_step label v = label \/ max_abs_step label v = v)
  /\ Rabs label <= Rabs (max_abs_step label v)
  /\ Rabs v <= Rabs (max_abs_step label v).
Proof.
  unfold max_abs_step. destruct (Rgt_dec (Rabs v) (Rabs label)); repeat split;
    auto; lra.
Qed.

(** The reduction returns its start value or one of the candidates, and
    nothing it has seen is larger in absolute value. *)
Lemma max_abs_fold (vals : list R) :
  forall init,
    let r := fold_left max_abs_step vals init in
    (r = init \/ In r vals)
    /\ Rabs init <= Rabs r
    /\ Forall (fun v => Rabs v <= Rabs r) vals.
Proof.
  induction vals as [|v vals IH]; intros init; simpl.
  - repeat split; auto; lra.
  - destruct (IH (max_abs_step init v)) as (Hin & Hinit & Hall).
    destruct (max_abs_step_cases init v) as (Hcase & Hl & Hv).
    repeat split.
    + destruct Hin as [Hin|Hin]; [|auto].
      rewrite Hin. destruct Hcase as [->| ->]; auto.
    + lra.
    + constructor; [lra | exact Hall].
Qed.

Lemma max_abs_step_0_r (label : R) : max_abs_step label 0 = label.
Proof.
  unfold max_abs_step. destruct (Rgt_dec (Rabs 0) (Rabs label)) as [H|];
    [|reflexivity].
  rewrite Rabs_R0 in H. pose proof (Rabs_pos label). lra.
Qed.

Lemma max_abs_step_0_l (v : R) : v <> 0 -> max_abs_step 0 v = v.
Proof.
  intros Hv. unfold max_abs_step.
  destruct (Rgt_dec (Rabs v) (Rabs 0)) as [|H]; [reflexivity|].
  rewrite Rabs_R0 in H. pose proof (Rabs_pos_lt v Hv). lra.
Qed.

Lemma regressGaussian_labelScale_eq (d : R) :
  regressGaussian_labelScale d = 1 - Rmax 0 (Rmin 1 (d / 2)).
Proof.
  unfold regressGaussian_labelScale, d3_scale_linear.
  replace ((d - 0) / (2 - 0)) with (d / 2) by lra. lra.
Qed.

Lemma sqrt_ge_2 (v : R) : 4 <= v -> 2 <= sqrt v.
Proof.
  intros Hv. replace 2 with (sqrt (2 * 2)) at 1 by (apply sqrt_square; lra).
  apply sqrt_le_1_alt. lra.
Qed.

Lemma gaussian_value_self (cx cy sign : R) :
  gaussian_value cx cy (cx, cy, sign) = sign * 1.
Proof.
  unfold gaussian_value, dist. simpl.
  replace ((cx - cx) * (cx - cx) + (cy - cy) * (cy - cy)) with 0 by ring.
  rewrite sqrt_0, regressGaussian_labelScale_eq.
  replace (0 / 2) with 0 by lra.
  rewrite Rmin_right by lra. rewrite Rmax_left by lra. lra.
Qed.

Lemma gaussian_value_far (x y cx cy sign : R) :
  4 <= (x - cx) * (x - cx) + (y - cy) * (y - cy) ->
  gaussian_value x y (cx, cy, sign) = 0.
Proof.
  intros Hfar. unfold gaussian_value, dist. simpl.
  apply sqrt_ge_2 in Hfar. rewrite regressGaussian_labelScale_eq.
  rewrite Rmin_left by lra. rewrite Rmax_right by lra. lra.
Qed.

Lemma regressGaussian_getLabel_max (x y : R) :
  (exists g, In g gaussians
             /\ regressGaussian_getLabel x y = gaussian_value x y g)
  /\ forall g, In g gaussians ->
               Rabs (gaussian_value x y g) <= Rabs (regressGaussian_getLabel x y).
Proof.
  rewrite regressGaussian_getLabel_fold.
  destruct (max_abs_fold (map (gaussian_value x y) gaussians) 0)
    as (Hin & _ & Hall).
  set (L := fold_left max_abs_step (map (gaussian_value x y) gaussians) 0) in *.
  assert (Hle : forall g, In g gaussians -> Rabs (gaussian_value x y g) <= Rabs L).
  { intros g Hg. rewrite Forall_forall in Hall. apply Hall.
    apply in_map. exact Hg. }
  split; [|exact Hle].
  destruct Hin as [H0|Hin].
  - exists (-4, 2.5, 1). split; [left; reflexivity|].
    specialize (Hle (-4, 2.5, 1) (or_introl eq_refl)).
    rewrite H0, Rabs_R0 in Hle. rewrite H0.
    symmetry. destruct (Req_dec (gaussian_value x y (-4, 2.5, 1)) 0) as [E|E];
      [exact E|].
    apply Rabs_pos_lt in E. lra.
  - apply in_map_iff in Hin. destruct Hin as (g & Hg & Hing).
    exists g. auto.
Qed.

Ltac gaussian_values :=
  rewrite ?gaussian_value_self; rewrite ?gaussian_value_far by lra.

Lemma regressGaussian_getLabel_centre (cx cy sign : R) :
  In (cx, cy, sign) gaussians ->
  regressGaussian_getLabel cx cy = sign * 1
  /\ forall g, In g gaussians -> g <> (cx, cy, sign) ->
               Rabs (gaussian_value cx cy g) < Rabs (sign * 1).
Proof.
  intros Hc. unfold gaussians in Hc. simpl in Hc.
  repeat (destruct Hc as [Hc|Hc]; [injection Hc as <- <- <-|]);
    try contradiction.
  all: split;
    [ rewrite regressGaussian_getLabel_fold; unfold gaussians; cbn [map];
      gaussian_values; cbn [fold_left];
      rewrite ?max_abs_step_0_r; rewrite max_abs_step_0_l by lra;
      rewrite ?max_abs_step_0_r; reflexivity
    | intros g Hg Hne; unfold gaussians in Hg; simpl in Hg;
      repeat (destruct Hg as [Hg|Hg]; [subst g|]); try contradiction;
      try (exfalso; apply Hne; reflexivity);
      gaussian_values; rewrite Rabs_R0; apply Rabs_pos_lt; lra ].
Qed.

(** C8: the label [regressGaussian] gives an example is [getLabel] at the
    noisy position; [getLabel] is the candidate [sign * linearMap (distance
    to the centre)] of largest absolute value among the six centres, with
    [linearMap] the linear map from [[0, 2]] to [[1, 0]] clamped, and not a
    sum; at a centre itself it is that centre's sign times 1, strictly above
    what every other centre proposes there. *)
Theorem regressGaussian_max_abs_label (rnd : nat -> R) (numSamples noise : R) (k : nat) :
  fst (regressGaussian rnd numSamples noise k) =
    map (fun j =>
           let p := (4 * j + k)%nat in
           let x := uniform (-6) 6 (rnd p) in
           let y := uniform (-6) 6 (rnd (S p)) in
           let noiseX := uniform (-6) 6 (rnd (S (S p))) * noise in
           let noiseY := uniform (-6) 6 (rnd (S (S (S p)))) * noise in
           Example2D.mk x y (regressGaussian_getLabel (x + noiseX) (y + noiseY)))
        (seq 0 (trips numSamples))
  /\ (forall d, regressGaussian_labelScale d = 1 - Rmax 0 (Rmin 1 (d / 2)))
  /\ (forall x y,
        (exists g, In g gaussians
                   /\ regressGaussian_getLabel x y = gaussian_value x y g)
        /\ forall g, In g gaussians ->
             Rabs (gaussian_value x y g) <= Rabs (regressGaussian_getLabel x y))
  /\ (forall cx cy sign,
        In (cx, cy, sign) gaussians ->
        regressGaussian_getLabel cx cy = sign * 1
        /\ forall g, In g gaussians -> g <> (cx, cy, sign) ->
             Rabs (gaussian_value cx cy g) < Rabs (sign * 1)).
Proof.
  split; [rewrite regressGaussian_eq; reflexivity|].
  split; [exact regressGaussian_labelScale_eq|].
  split; [exact regressGaussian_getLabel_max|].
  exact regressGaussian_getLabel_centre.
Qed.

Lemma regressGaussian_max_abs_label_witness :
  In (0, -2.5, 1) gaussians /\ regressGaussian_getLabel 0 (-2.5) = 1 * 1.
Proof.
  assert (H : In (0, -2.5, 1) gaussians) by (do 4 right; left; reflexivity).
  split; [exact H|].
  exact (proj1 (proj2 (proj2 (proj2
           (regressGaussian_max_abs_label (fun _ => 0.75) 1 0 0))) 0 (-2.5) 1 H)).
Defined.

(** ** The primitives: [randUniform], [dist], [randOnLine] *)

Lemma moderate_small (r : R) : Rabs r <= 8 -> moderate r.
Proof.
  intros H. unfold moderate. apply Rle_trans with (2 ^ 3); [simpl; lra|].
  apply Rle_pow; [lra | lia].
Qed.

(** X1: for a draw in [[0, 1)] and bounds of moderate size, [randUniform a b]
    uses one draw and returns a number between its two bounds, both
    included, in whichever order they come; with equal bounds it returns
    that bound. *)
Theorem randUniform_between (rnd : nat -> R) (a b : R) (k : nat) :
  0 <= rnd k < 1 -> moderate a -> moderate b ->
  snd (randUniform rnd a b k) = S k
  /\ Rmin a b <= fst (randUniform rnd a b k) <= Rmax a b
  /\ (a = b -> fst (randUniform rnd a b k) = a).
Proof.
  intros [H0 H1] _ _. unfold randUniform, bind, ret, Math_random. cbn [fst snd].
  split; [reflexivity|]. split.
  - unfold Rmin, Rmax. destruct (Rle_dec a b); split; nra.
  - intros ->. ring.
Qed.

Lemma randUniform_between_witness :
  0 <= (fun _ : nat => 0.75) 0%nat < 1 /\ moderate (-6) /\ moderate 6
  /\ Rmin (-6) 6 <= fst (randUniform (fun _ => 0.75) (-6) 6 0%nat) <= Rmax (-6) 6.
Proof.
  assert (H : 0 <= (fun _ : nat => 0.75) 0%nat < 1) by lra.
  assert (Ha : moderate (-6)).
  { apply moderate_small. unfold Rabs. destruct (Rcase_abs (-6)); lra. }
  assert (Hb : moderate 6).
  { apply moderate_small. unfold Rabs. destruct (Rcase_abs 6); lra. }
  repeat (split; [assumption|]).
  exact (proj1 (proj2 (randUniform_between (fun _ => 0.75) 0 H Ha Hb))).
Defined.

Lemma sqrt_triangle (x1 y1 x2 y2 : R) :
  sqrt ((x1 + x2) * (x1 + x2) + (y1 + y2) * (y1 + y2))
  <= sqrt (x1 * x1 + y1 * y1) + sqrt (x2 * x2 + y2 * y2).
Proof.
  assert (Ha : 0 <= x1 * x1 + y1 * y1) by nra.
  assert (Hb : 0 <= x2 * x2 + y2 * y2) by nra.
  pose proof (sqrt_pos (x1 * x1 + y1 * y1)) as HA.
  pose proof (sqrt_pos (x2 * x2 + y2 * y2)) as HB.
  pose proof (sqrt_sqrt _ Ha) as HAA.
  pose proof (sqrt_sqrt _ Hb) as HBB.
  set (A := sqrt (x1 * x1 + y1 * y1)) in *.
  set (B := sqrt (x2 * x2 + y2 * y2)) in *.
  rewrite <- (sqrt_square (A + B)) by lra.
  apply sqrt_le_1_alt.
  assert (Hcs : (x1 * x2 + y1 * y2) * (x1 * x2 + y1 * y2) <= (A * B) * (A * B)).
  { replace (A * B * (A * B)) with ((A * A) * (B * B)) by ring.
    rewrite HAA, HBB.
    pose proof (Rle_0_sqr (x1 * y2 - x2 * y1)) as Hsq. unfold Rsqr in Hsq. nra. }
  assert (Hab : 0 <= A * B) by (apply Rmult_le_pos; assumption).
  assert (Hp : x1 * x2 + y1 * y2 <= A * B).
  { apply Rnot_lt_le. intros Hlt.
    assert (Hpos : 0 < (x1 * x2 + y1 * y2 - A * B) * (x1 * x2 + y1 * y2 + A * B))
      by (apply Rmult_lt_0_compat; lra).
    lra. }
  replace ((A + B) * (A + B)) with (A * A + B * B + 2 * (A * B)) by ring.
  rewrite HAA, HBB. lra.
Qed.

(** X3: for a draw in [[0, 1)] and end points with coordinates of moderate
    size, each coordinate of the point [randOnLine a b] returns lies between
    the corresponding coordinates of [a] and [b], both included: the point
    is in the bounding box of the segment, and for [a = b] it is [a]. *)
Theorem randOnLine_in_box (rnd : nat -> R) (a b : Point.t) (k : nat) :
  0 <= rnd k < 1 ->
  moderate (Point.x a) /\ moderate (Point.y a) ->
  moderate (Point.x b) /\ moderate (Point.y b) ->
  let p := fst (randOnLine rnd a b k) in
  Rmin (Point.x a) (Point.x b) <= Point.x p <= Rmax (Point.x a) (Point.x b)
  /\ Rmin (Point.y a) (Point.y b) <= Point.y p <= Rmax (Point.y a) (Point.y b)
  /\ (a = b -> p = a).
Proof.
  intros [H0 H1] _ _ p. subst p.
  destruct a as [ax ay], b as [bx by_].
  unfold randOnLine, bind, ret, Math_random. cbn [fst Point.x Point.y].
  split; [|split].
  - unfold Rmin, Rmax. destruct (Rle_dec ax bx); split; nra.
  - unfold Rmin, Rmax. destruct (Rle_dec ay by_); split; nra.
  - intros H. injection H as <- <-. f_equal; ring.
Qed.

Lemma randOnLine_in_box_witness :
  let a := Point.mk (-4) 3 in
  let b := Point.mk 1.5 3 in
  0 <= (fun _ : nat => 0.75) 0%nat < 1
  /\ (moderate (Point.x a) /\ moderate (Point.y a))
  /\ (moderate (Point.x b) /\ moderate (Point.y b))
  /\ Rmin (Point.x a) (Point.x b)
     <= Point.x (fst (randOnLine (fun _ => 0.75) a b 0%nat))
     <= Rmax (Point.x a) (Point.x b).
Proof.
  cbv zeta.
  assert (H : 0 <= (fun _ : nat => 0.75) 0%nat < 1) by lra.
  assert (Ha : moderate (Point.x (Point.mk (-4) 3))
               /\ moderate (Point.y (Point.mk (-4) 3))).
  { split; apply moderate_small; cbn [Point.x Point.y]; unfold Rabs;
      destruct (Rcase_abs _); lra. }
  assert (Hb : moderate (Point.x (Point.mk 1.5 3))
               /\ moderate (Point.y (Point.mk 1.5 3))).
  { split; apply moderate_small; cbn [Point.x Point.y]; unfold Rabs;
      destruct (Rcase_abs _); lra. }
  repeat (split; [assumption|]).
  exact (proj1 (randOnLine_in_box (fun _ => 0.75)
                  (Point.mk (-4) 3) (Point.mk 1.5 3) 0 H Ha Hb)).
Defined.

(** ** Sizes, draws and layout of the datasets *)

Lemma firstn_seq_le (a : nat) :
  forall s b, (a <= b)%nat -> firstn a (seq s b) = seq s a.
Proof.
  induction a as [|a IH]; intros s [|b] Hab; simpl; try reflexivity; try lia.
  rewrite IH by lia. reflexivity.
Qed.

(** X4: [regressPlane], [regressGaussian] and [classifyXORData] return
    exactly [numSamples] examples for a non-negative integer [numSamples]
    (none for a negative one), and asking for more samples from the same
    draws only extends the dataset: the smaller one is a prefix of the
    larger. *)
Theorem single_loop_sizes (rnd : nat -> R) (m n : Z) (noise : R) (k : nat) :
  (length (fst (regressPlane rnd (IZR n) noise k)) = Z.to_nat n
   /\ length (fst (regressGaussian rnd (IZR n) noise k)) = Z.to_nat n
   /\ length (fst (classifyXORData rnd (IZR n) noise k)) = Z.to_nat n)
  /\ ((m <= n)%Z ->
      fst (regressPlane rnd (IZR m) noise k) =
        firstn (Z.to_nat m) (fst (regressPlane rnd (IZR n) noise k))
      /\ fst (regressGaussian rnd (IZR m) noise k) =
         firstn (Z.to_nat m) (fst (regressGaussian rnd (IZR n) noise k))
      /\ fst (classifyXORData rnd (IZR m) noise k) =
         firstn (Z.to_nat m) (fst (classifyXORData rnd (IZR n) noise k))).
Proof.
  rewrite !regressPlane_eq, !regressGaussian_eq, !classifyXORData_eq, !trips_IZR.
  cbn [fst]. split.
  - rewrite !length_map, !length_seq. auto.
  - intros Hmn. rewrite !firstn_map, !firstn_seq_le by lia. auto.
Qed.

Lemma single_loop_sizes_witness :
  (2 <= 5)%Z
  /\ fst (classifyXORData (fun _ => 0.75) 2 0.5 0%nat) =
     firstn 2 (fst (classifyXORData (fun _ => 0.75) 5 0.5 0%nat)).
Proof.
  assert (H : (2 <= 5)%Z) by lia.
  split; [exact H|].
  exact (proj2 (proj2 (proj2 (single_loop_sizes (fun _ => 0.75) 2 5 0.5 0) H))).
Defined.

(** X5: the generators built on one or two counted loops use a fixed
    number of draws per example they return: four in [regressPlane],
    [regressGaussian], [classifyXORData] and [classifyCircleData], two in
    [classifySpiralData]; the next draw after a call at position [k] is at
    [k] plus that many draws. *)
Theorem draws_per_example (rnd : nat -> R) (numSamples noise : R) (k : nat) :
  let used (r : list Example2D.t * nat) (c : nat) :=
    snd r = (c * length (fst r) + k)%nat in
  used (regressPlane rnd numSamples noise k) 4%nat
  /\ used (regressGaussian rnd numSamples noise k) 4%nat
  /\ used (classifyXORData rnd numSamples noise k) 4%nat
  /\ used (classifyCircleData rnd numSamples noise k) 4%nat
  /\ used (classifySpiralData rnd numSamples noise k) 2%nat.
Proof.
  cbv zeta.
  rewrite regressPlane_eq, regressGaussian_eq, classifyXORData_eq,
    classifyCircleData_eq, classifySpiralData_eq.
  cbv zeta. cbn [fst snd].
  rewrite !length_app, !length_map, !length_seq.
  repeat split; lia.
Qed.

(** X6: whatever the noise, [classifySpiralData] returns the examples of
    label 1 first and those of label -1 after them, as many of each, and so
    does [classifyTwoGaussData] whenever it returns. *)
Theorem positive_then_negative (rnd : nat -> R) (numSamples noise : R) (k : nat) :
  let c := trips (numSamples / 2) in
  map Example2D.label (fst (classifySpiralData rnd numSamples noise k)) =
    repeat 1 c ++ repeat (-1) c
  /\ forall fuel pts k',
       classifyTwoGaussData rnd fuel numSamples noise k = Some (pts, k') ->
       map Example2D.label pts = repeat 1 c ++ repeat (-1) c.
Proof.
  intros c. split.
  - rewrite classifySpiralData_eq. cbv zeta. cbn [fst]. fold c.
    rewrite map_app, !map_map. cbn [Example2D.label classifySpiralData_example].
    now rewrite !map_const_seq.
  - intros fuel pts k' H. apply classifyTwoGaussData_Some in H.
    destruct H as (l1 & l2 & -> & H1 & H2 & L1 & L2). fold c in H1, H2.
    rewrite map_app. f_equal.
    + rewrite <- H1. clear H1. induction L1 as [|e l He _ IH]; simpl;
        [reflexivity|]. now rewrite He, IH.
    + rewrite <- H2. clear H2. induction L2 as [|e l He _ IH]; simpl;
        [reflexivity|]. now rewrite He, IH.
Qed.

Lemma positive_then_negative_witness :
  exists pts k',
    classifyTwoGaussData (fun _ => 0.75) 1 4 0.25 0%nat = Some (pts, k')
    /\ map Example2D.label pts = repeat 1 2 ++ repeat (-1) 2.
Proof.
  destruct (classifyTwoGaussData (fun _ => 0.75) 1 4 0.25 0%nat)
    as [[pts k']|] eqn:E.
  - exists pts, k'. split; [reflexivity|].
    pose proof (proj2 (positive_then_negative (fun _ => 0.75) 4 0.25 0) 1%nat pts k' E)
      as H.
    rewrite (trips_half 4) in H. exact H.
  - exfalso. exact (classifyTwoGaussData_returns 4 0.25 0 fair_const E).
Defined.

(** ** The line-based generator never returns more than asked for *)

Lemma fold_left_ratio (props : list PropertyForLines.t) :
  forall a,
    fold_left (fun sum x => sum + PropertyForLines.ratio x) props a =
    a + fold_right Rplus 0 (map PropertyForLines.ratio props).
Proof.
  induction props as [|prop props IH]; intros a; simpl; [lra|].
  rewrite IH. lra.
Qed.

Lemma sum_scaled (c : R) (props : list PropertyForLines.t) :
  fold_right Rplus 0 (map (fun prop => PropertyForLines.ratio prop * c) props) =
  fold_right Rplus 0 (map PropertyForLines.ratio props) * c.
Proof. induction props as [|prop props IH]; simpl; [lra|]. rewrite IH. lra. Qed.

(** The floors of some numbers add up to at most their sum, and to more
    than their sum less one for each number. *)
Lemma sum_floor_bounds {T : Type} (f : T -> R) (l : list T) :
  let total := fold_right Rplus 0 (map f l) in
  let floors := fold_right Z.add 0%Z (map (fun t => Int_part (f t)) l) in
  IZR floors <= total
  /\ total - INR (length l) <= IZR floors
  /\ (l <> [] -> total - INR (length l) < IZR floors).
Proof.
  induction l as [|t l IH]; cbv zeta.
  - simpl. repeat split; try lra. intros H. contradiction.
  - cbv zeta in IH. destruct IH as (IH1 & IH2 & _).
    cbn [map fold_right length]. rewrite plus_IZR, S_INR.
    destruct (Int_part_bounds (f t)) as [Hlo Hhi].
    split; [lra|]. split; [lra|]. intros _. lra.
Qed.

Section LinesBounds.

Variable rnd : nat -> R.

Lemma makeClassifyDataWithLines_bounds (numSamples noise : R)
    (props : list PropertyForLines.t) (randRadius : R) (k : nat) :
  0 <= numSamples -> 0 < sumOfRatio props ->
  Forall (fun prop => 0 <= PropertyForLines.ratio prop) props ->
  let count :=
    length (fst (makeClassifyDataWithLines rnd numSamples noise props randRadius k)) in
  numSamples - INR (length props) < INR count <= numSamples.
Proof.
  intros Hn Hsum Hratio count. subst count.
  rewrite makeClassifyDataWithLines_length.
  rewrite (INR_IZR_INZ (list_sum _)).
  rewrite (list_sum_to_nat (floor_quota numSamples props)).
  2:{ eapply Forall_impl; [|exact Hratio]. intros prop Hp.
      now apply floor_quota_nonneg. }
  assert (Hne : props <> []).
  { intros ->. unfold sumOfRatio in Hsum. simpl in Hsum. lra. }
  pose proof (sum_floor_bounds
                (fun prop => PropertyForLines.ratio prop / sumOfRatio props * numSamples)
                props) as H.
  cbv zeta in H. destruct H as (Hup & _ & Hlow). specialize (Hlow Hne).
  assert (Htotal :
    fold_right Rplus 0
      (map (fun prop => PropertyForLines.ratio prop / sumOfRatio props * numSamples)
           props) = numSamples).
  { transitivity
      (fold_right Rplus 0
         (map (fun prop => PropertyForLines.ratio prop
                           * (/ sumOfRatio props * numSamples)) props)).
    - f_equal. apply map_ext. intros prop. unfold Rdiv. ring.
    - rewrite sum_scaled.
      assert (E : fold_right Rplus 0 (map PropertyForLines.ratio props)
                  = sumOfRatio props).
      { unfold sumOfRatio. rewrite fold_left_ratio. lra. }
      rewrite E. field. lra. }
  rewrite Htotal in Hup, Hlow.
  unfold floor_quota, Math_floor. lra.
Qed.

End LinesBounds.

(** X8: for every [numSamples >= 0], [classifyOxtuData] returns more than
    [numSamples - 8] and at most [numSamples] examples, and
    [classifyJavaData] more than [numSamples - 14] and at most
    [numSamples]. *)
Theorem glyph_count_bounds (rnd : nat -> R) (numSamples noise : R) (k : nat) :
  0 <= numSamples ->
  numSamples - 8 < INR (length (fst (classifyOxtuData rnd numSamples noise k)))
    <= numSamples
  /\ numSamples - 14 < INR (length (fst (classifyJavaData rnd numSamples noise k)))
     <= numSamples.
Proof.
  intros Hn. unfold classifyOxtuData, classifyJavaData.
  destruct classifyOxtuData_props_ratio as [Ho1 Ho2].
  destruct classifyJavaData_props_ratio as [Hj1 Hj2].
  pose proof (makeClassifyDataWithLines_bounds rnd noise 3 k Hn Ho1 Ho2) as Ho.
  pose proof (makeClassifyDataWithLines_bounds rnd noise 3 k Hn Hj1 Hj2) as Hj.
  cbv zeta in Ho, Hj.
  change (INR (length classifyOxtuData_props)) with (INR 8) in Ho.
  change (INR (length classifyJavaData_props)) with (INR 14) in Hj.
  rewrite INR_IZR_INZ in Ho, Hj. simpl in Ho, Hj. lra.
Qed.

Lemma glyph_count_bounds_witness :
  0 <= 100
  /\ 100 - 8 < INR (length (fst (classifyOxtuData (fun _ => 0.75) 100 0.5 0%nat)))
     <= 100.
Proof.
  assert (H : 0 <= 100) by lra.
  split; [exact H|].
  exact (proj1 (glyph_count_bounds (fun _ => 0.75) 0.5 0 H)).
Defined.

(** ** Where the examples lie *)







(** ** Ranges of the regression labels *)








(** ** The line-based generator: every example is near its segment *)




(** ** [regressGaussian]: at most one centre speaks *)

Lemma dist_triangle (a b c : Point.t) : dist a c <= dist a b + dist b c.
Proof.
  destruct a as [ax ay], b as [bx by_], c as [cx cy].
  unfold dist. cbn [Point.x Point.y].
  replace (ax - cx) with ((ax - bx) + (bx - cx)) by ring.
  replace (ay - cy) with ((ay - by_) + (by_ - cy)) by ring.
  apply sqrt_triangle.
Qed.

Lemma dist_sym (a b : Point.t) : dist a b = dist b a.
Proof. unfold dist. f_equal. ring. Qed.

Lemma gaussian_value_outside (x y cx cy sign : R) :
  2 <= dist (Point.mk x y) (Point.mk cx cy) ->
  gaussian_value x y (cx, cy, sign) = 0.
Proof.
  intros Hfar. unfold gaussian_value. rewrite regressGaussian_labelScale_eq.
  rewrite Rmin_left by lra. rewrite Rmax_right by lra. lra.
Qed.

(** Two centres at distance 4 or more: no position is closer than 2 to
    both. *)
Lemma gaussian_value_disjoint (x y cx1 cy1 s1 cx2 cy2 s2 : R) :
  16 <= (cx1 - cx2) * (cx1 - cx2) + (cy1 - cy2) * (cy1 - cy2) ->
  gaussian_value x y (cx1, cy1, s1) = 0 \/ gaussian_value x y (cx2, cy2, s2) = 0.
Proof.
  intros Hfar.
  assert (H4 : 4 <= dist (Point.mk cx1 cy1) (Point.mk cx2 cy2)).
  { unfold dist. cbn [Point.x Point.y].
    replace 4 with (sqrt (4 * 4)) at 1 by (apply sqrt_square; lra).
    apply sqrt_le_1_alt. lra. }
  pose proof (dist_triangle (Point.mk cx1 cy1) (Point.mk x y) (Point.mk cx2 cy2))
    as Ht.
  rewrite (dist_sym (Point.mk cx1 cy1) (Point.mk x y)) in Ht.
  destruct (Rle_dec 2 (dist (Point.mk x y) (Point.mk cx1 cy1))) as [H1|H1].
  - left. now apply gaussian_value_outside.
  - right. apply gaussian_value_outside. lra.
Qed.

Lemma max_abs_fold_zeros (vals : list R) (init : R) :
  Forall (fun v => v = 0) vals ->
  fold_left max_abs_step vals init = init /\ fold_right Rplus 0 vals = 0.
Proof.
  induction 1 as [|v vals Hv _ IH]; simpl; [auto|].
  subst v. rewrite max_abs_step_0_r. destruct IH as [-> ->]. split; [reflexivity|lra].
Qed.

(** When no two of the candidates are both non-zero, keeping the largest
    in absolute value adds them up. *)
Lemma max_abs_fold_sum (vals : list R) :
  ForallOrdPairs (fun a b => a = 0 \/ b = 0) vals ->
  fold_left max_abs_step vals 0 = fold_right Rplus 0 vals.
Proof.
  induction 1 as [|v vals Hv _ IH]; simpl; [reflexivity|].
  destruct (Req_dec v 0) as [->|Hne].
  - rewrite max_abs_step_0_r, IH. lra.
  - rewrite max_abs_step_0_l by assumption.
    assert (Hz : Forall (fun w => w = 0) vals).
    { eapply Forall_impl; [|exact Hv]. intros w [H|H]; [contradiction|exact H]. }
    destruct (max_abs_fold_zeros v Hz) as [-> ->]. lra.
Qed.

(** X18: the six centres of [regressGaussian] are at least 4 apart and a
    candidate is 0 from distance 2 on, so at every position at most one
    centre proposes a non-zero candidate; the label of largest absolute
    value is therefore also the sum of the six candidates. *)
Theorem regressGaussian_one_centre (x y : R) :
  ForallOrdPairs (fun a b => a = 0 \/ b = 0) (map (gaussian_value x y) gaussians)
  /\ regressGaussian_getLabel x y =
     fold_right Rplus 0 (map (gaussian_value x y) gaussians).
Proof.
  assert (H : ForallOrdPairs (fun a b => a = 0 \/ b = 0)
                (map (gaussian_value x y) gaussians)).
  { unfold gaussians. cbn [map].
    repeat (apply FOP_cons;
            [repeat (apply Forall_cons; [apply gaussian_value_disjoint; lra|]);
             apply Forall_nil|]).
    apply FOP_nil. }
  split; [exact H|].
  rewrite regressGaussian_getLabel_fold. now apply max_abs_fold_sum.
Qed.
